(** * dataplug: the LiDAR split / process / merge workflow

    A shallow embedding of [validation/geospatial/lpc_workflow.py].

    Conventions of the embedding.
    - Python [int] is [Z].  Planar coordinates are Python [float]s, that
      is binary64 numbers: the kernel's primitive [float] with its
      round-to-nearest-even operations.  An [int] that meets a [float] in
      an operation is converted first, and the conversion raises
      [OverflowError] when the [int] is too large.
    - A Python call that may raise returns a [result]; code that mutates
      objects or the file system threads the mutated state explicitly and
      keeps it when an exception is raised, as Python does.
    - The codecs of laspy, PDAL and rasterio are outside the repository.
      A LAZ buffer and a GeoTIFF file are kept in decoded form (header and
      points, metadata and pixels).  A laspy writer keeps a header of its
      own, which it resets when it is opened and grows with the points
      written to it.  The mosaic algorithm and the PDAL engine are section
      variables. *)

From Stdlib Require Import ZArith QArith Lia.
From Stdlib Require Import PrimFloat FloatOps SpecFloat.
From stdpp Require Import base list strings gmap pretty.

Set Default Proof Using "Type".
Set Warnings "-inexact-float".
Local Open Scope Z_scope.

(** ** Python exceptions and fallible results *)

(** The built-in exceptions the workflow can raise, the errors of the
    external libraries, and the two error kinds the specification names
    ([InvalidArgument], [EmptyPartitionSet]). *)
Inductive exn : Type :=
  | ZeroDivisionError
  | OverflowError
  | IndexError
  | FileNotFoundError
  | LaspyException (msg : string)
  | RasterioIOError (msg : string)
  | PdalError (msg : string)
  | InvalidArgument
  | EmptyPartitionSet.

Inductive result (A : Type) : Type :=
  | Ok (a : A)
  | Raise (e : exn).
Arguments Ok {A} a.
Arguments Raise {A} e.

Definition is_ok {A} (r : result A) : bool :=
  match r with Ok _ => true | Raise _ => false end.

Definition rbind {A B} (r : result A) (k : A -> result B) : result B :=
  match r with
  | Ok a => k a
  | Raise e => Raise e
  end.

Declare Scope py_scope.
Delimit Scope py_scope with py.
Notation "x <- r ;; k" := (rbind r (fun x => k))
  (at level 100, r at next level, right associativity) : py_scope.

(** ** BoundsPartitioner: [square_split] *)

Module Bounds.

(** A cell is the Python tuple [(x_min, y_min, x_max, y_max)]. *)
Definition Cell : Type := float * float * float * float.

(** [range(n)]: empty when [n <= 0]. *)
Definition range (n : Z) : list Z :=
  map Z.of_nat (seq 0 (Z.to_nat n)).

(** The binary64 number nearest to an integer, ties to even. *)
Definition float_of_Z (n : Z) : float :=
  SF2Prim (binary_normalize prec emax n 0 false).

(** The first integer whose nearest binary64 number is not finite. *)
Definition int_too_large : Z := 2 ^ 1024 - 2 ^ 970.

(** The conversion of an [int] operand of a [float] operation. *)
Definition int_to_float (n : Z) : result float :=
  if Z.abs n <? int_too_large then Ok (float_of_Z n) else Raise OverflowError.

(** Python's true division [a / b] of a [float] by an [int]. *)
Definition truediv (a : float) (b : Z) : result float :=
  (b' <- int_to_float b ;;
   if b =? 0 then Raise ZeroDivisionError else Ok (a / b')%float)%py.

(** The body of the inner [for j] loop: one [bounds.append(...)].  The
    indices [i] and [j] come from [range(square_splits)], so their
    conversion cannot overflow once that of [square_splits] has not. *)
Definition split_cell (x_min y_min x_size y_size : float) (i j : Z) : Cell :=
  let x_min_bound := (x_size * float_of_Z i + x_min)%float in
  let y_min_bound := (y_size * float_of_Z j + y_min)%float in
  let x_max_bound := (x_min_bound + x_size)%float in
  let y_max_bound := (y_min_bound + y_size)%float in
  (x_min_bound, y_min_bound, x_max_bound, y_max_bound).

Definition square_split (x_min y_min x_max y_max : float) (square_splits : Z)
  : result (list Cell) :=
  (x_size <- truediv (x_max - x_min) square_splits ;;
   y_size <- truediv (y_max - y_min) square_splits ;;
   Ok (foldl (fun bounds i =>
         foldl (fun bounds j =>
           bounds ++ [split_cell x_min y_min x_size y_size i j])
           bounds (range square_splits))
         [] (range square_splits)))%py.

(** The membership mask of [partition_las], closed on both ends:
    [(x >= x_min) & (x <= x_max) & (y >= y_min) & (y <= y_max)]. *)
Definition in_cell (x y : float) (c : Cell) : bool :=
  let '(x_min, y_min, x_max, y_max) := c in
  (x_min <=? x)%float && (x <=? x_max)%float &&
  (y_min <=? y)%float && (y <=? y_max)%float.

End Bounds.

(** ** Stateful code: a state-and-exception monad

    [M S A] is a Python computation over the mutable world [S] that
    returns an [A] or raises.  The world is kept when an exception is
    raised: mutations made before the [raise] stay. *)

Definition M (S A : Type) : Type := S -> S * result A.

Definition ret {S A} (a : A) : M S A := fun s => (s, Ok a).
Definition raise {S A} (e : exn) : M S A := fun s => (s, Raise e).
Definition lift {S A} (r : result A) : M S A := fun s => (s, r).
Definition get {S} : M S S := fun s => (s, Ok s).
Definition put {S} (s' : S) : M S unit := fun _ => (s', Ok tt).

Definition bind {S A B} (m : M S A) (k : A -> M S B) : M S B := fun s =>
  match m s with
  | (s1, Ok a) => k a s1
  | (s1, Raise e) => (s1, Raise e)
  end.

Notation "x <-- m ;; k" := (bind m (fun x => k))
  (at level 100, m at next level, right associativity) : py_scope.
Notation "m ;;; k" := (bind m (fun _ => k))
  (at level 100, right associativity) : py_scope.

(** [try: body finally: fin].  The [finally] block always runs; an
    exception raised inside it replaces the outcome of the body. *)
Definition try_finally {S A} (body : M S A) (fin : M S unit) : M S A := fun s =>
  let '(s1, r) := body s in
  match fin s1 with
  | (s2, Ok _) => (s2, r)
  | (s2, Raise e) => (s2, Raise e)
  end.

(** [try: body except FileNotFoundError: pass]. *)
Definition except_FileNotFoundError_pass {S} (body : M S unit) : M S unit := fun s =>
  match body s with
  | (s1, Raise FileNotFoundError) => (s1, Ok tt)
  | other => other
  end.

(** [for x in xs: body x], without [break]. *)
Fixpoint for_each {S A} (xs : list A) (body : A -> M S unit) : M S unit :=
  match xs with
  | [] => ret tt
  | x :: rest => (body x ;;; for_each rest body)%py
  end.

(** ** StreamingPointRouter: [partition_las] *)

Module Router.
Import Bounds.

(** One point record.  The router inspects [x] and [y] only. *)
Record Point : Type := mkPoint {
  x : float;
  y : float;
  z : float;
  intensity : Z;
  return_number : Z;
  classification : Z
}.

(** The header fields of a LAS file that the workflow reads, and the
    point format it hands on. *)
Record LasHeader : Type := mkHeader {
  x_min : float;
  y_min : float;
  x_max : float;
  y_max : float;
  point_count : Z;
  point_format : Z
}.

(** An open LAS reader.  [chunks] is what successive reads of
    [file.chunk_iterator(1_000_000)] deliver, in order: a chunk of points,
    or the exception laspy raises on a malformed or truncated stream. *)
Record LasReader : Type := mkReader {
  header : LasHeader;
  chunks : list (result (list Point))
}.

(** A LAS writer over its [BytesIO] buffer: its header, the points
    written so far, and how often it was closed. *)
Record LasWriter : Type := mkWriter {
  w_header : LasHeader;
  w_points : list Point;
  w_closed : nat
}.

(** The largest finite binary64 number, [numpy.finfo('f8').max]. *)
Definition f64_max : float := 0x1.fffffffffffffp+1023%float.

(** Python's [max(a, b)] and [min(a, b)]. *)
Definition py_max (a b : float) : float := if (a <? b)%float then b else a.
Definition py_min (a b : float) : float := if (b <? a)%float then b else a.

(** laspy's [LasHeader.partial_reset], as the writer applies it to its
    copy of the header: no point, and bounds that any point replaces. *)
Definition partial_reset (h : LasHeader) : LasHeader :=
  {| x_min := f64_max; y_min := f64_max;
     x_max := (- f64_max)%float; y_max := (- f64_max)%float;
     point_count := 0; point_format := point_format h |}.

(** laspy's [LasHeader.grow]: the bounds stretch to the points and the
    count rises by their number. *)
Definition grow_point (h : LasHeader) (p : Point) : LasHeader :=
  {| x_min := py_min (x_min h) (x p); y_min := py_min (y_min h) (y p);
     x_max := py_max (x_max h) (x p); y_max := py_max (y_max h) (y p);
     point_count := point_count h + 1; point_format := point_format h |}.

Definition grow (h : LasHeader) (points : list Point) : LasHeader :=
  foldl grow_point h points.

(** The header a writer leaves in its buffer when it is closed: a
    writer that received no point declares the bounds [0]. *)
Definition final_header (h : LasHeader) : LasHeader :=
  if point_count h =? 0
  then {| x_min := 0; y_min := 0; x_max := 0; y_max := 0;
          point_count := point_count h; point_format := point_format h |}
  else h.

(** [laspy.open(buff, mode='w', header=h, closefd=False, do_compress=True)]:
    the writer works on a copy of [h] that it resets. *)
Definition open_writer (h : LasHeader) : LasWriter :=
  {| w_header := partial_reset h; w_points := []; w_closed := 0 |}.

Definition write_points (w : LasWriter) (pts : list Point) : LasWriter :=
  {| w_header := grow (w_header w) pts;
     w_points := w_points w ++ pts;
     w_closed := w_closed w |}.

Definition close (w : LasWriter) : LasWriter :=
  {| w_header := final_header (w_header w);
     w_points := w_points w;
     w_closed := S (w_closed w) |}.

(** The content of a LAZ buffer, decoded. *)
Record LasPayload : Type := mkPayload {
  pl_header : LasHeader;
  pl_points : list Point
}.

(** [buf.getvalue()], read once the writer is closed. *)
Definition getvalue (w : LasWriter) : LasPayload :=
  {| pl_header := w_header w; pl_points := w_points w |}.

(** The mutable world of [partition_las]: the list [writers]. *)
Abbreviation Writers := (list LasWriter).

(** numpy on boolean arrays: [points[mask]], [np.any], [np.sum]. *)
Fixpoint select {A} (xs : list A) (mask : list bool) : list A :=
  match xs, mask with
  | a :: xs', true :: mask' => a :: select xs' mask'
  | _ :: xs', false :: mask' => select xs' mask'
  | _, _ => []
  end.

Definition np_any (mask : list bool) : bool := existsb id mask.

Definition np_sum (mask : list bool) : Z :=
  Z.of_nat (length (List.filter id mask)).

(** [(x >= x_min) & (x <= x_max) & (y >= y_min) & (y <= y_max)]
    over the coordinate arrays of a chunk. *)
Definition chunk_mask (points : list Point) (c : Cell) : list bool :=
  map (fun p => in_cell (x p) (y p) c) points.

(** [writers[i].write_points(sub_points)] *)
Definition writers_write (i : nat) (sub_points : list Point) : M Writers unit :=
  fun ws =>
    match ws !! i with
    | Some w => (<[i := write_points w sub_points]> ws, Ok tt)
    | None => (ws, Raise IndexError)
    end.

(** Lines 56-63: the mask, the conditional write and the new tally. *)
Definition route_cell (points : list Point) (i : nat) (c : Cell)
    (point_piped : Z) : M Writers Z :=
  let mask := chunk_mask points c in
  ((if np_any mask
    then writers_write i (select points mask)
    else ret tt) ;;;
   ret (point_piped + np_sum mask))%py.

(** Lines 55-65: the loop over [enumerate(sub_bounds)] with its [break]. *)
Fixpoint route_chunk (points : list Point) (point_piped : Z)
    (sub_bounds : list (nat * Cell)) : M Writers unit :=
  match sub_bounds with
  | [] => ret tt
  | (i, c) :: rest =>
      (point_piped' <-- route_cell points i c point_piped ;;
       if point_piped' =? Z.of_nat (length points)
       then ret tt
       else route_chunk points point_piped' rest)%py
  end.

(** The routing of one chunk as the specification defines it: every
    partition's mask is evaluated, with no early stop. *)
Fixpoint route_chunk_all (points : list Point) (point_piped : Z)
    (sub_bounds : list (nat * Cell)) : M Writers unit :=
  match sub_bounds with
  | [] => ret tt
  | (i, c) :: rest =>
      (point_piped' <-- route_cell points i c point_piped ;;
       route_chunk_all points point_piped' rest)%py
  end.

(** [enumerate(xs)] *)
Definition enumerate {A} (xs : list A) : list (nat * A) :=
  imap (fun i a => (i, a)) xs.

(** Python's true division [a / b] of two [int]s.  The quotient is kept
    exact; the workflow only prints it. *)
Definition int_truediv (a b : Z) : result Q :=
  if b =? 0 then Raise ZeroDivisionError else Ok (inject_Z a / inject_Z b)%Q.

(** The argument of the progress [print]:
    [count / file.header.point_count * 100]. *)
Definition progress {S} (count point_count : Z) : M S Q :=
  (r <-- lift (int_truediv count point_count) ;;
   ret (r * 100)%Q)%py.

(** Lines 46-66: the loop over the chunk iterator.  [router] is the
    routing of one chunk (lines 53-65). *)
Fixpoint route_chunks (router : list Point -> M Writers unit)
    (point_count : Z) (count : Z) (stream : list (result (list Point)))
    : M Writers Z :=
  match stream with
  | [] => ret count
  | Raise e :: _ => raise e
  | Ok points :: rest =>
      (progress count point_count ;;;
       router points ;;;
       route_chunks router point_count (count + Z.of_nat (length points)) rest)%py
  end.

(** Lines 45-67: the body of the [try]. *)
Definition routing_body (router : list Point -> M Writers unit)
    (file : LasReader) : M Writers unit :=
  (count <-- route_chunks router (point_count (header file)) 0 (chunks file) ;;
   progress count (point_count (header file)) ;;;
   ret tt)%py.

(** Lines 69-71: the [finally] block. *)
Definition close_writers : M Writers unit :=
  fun ws => (map close ws, Ok tt).

(** A returned tuple [(file_path, i, buf.getvalue())]. *)
Definition Payload : Type := string * Z * LasPayload.

Definition partition_las_with (router : list Cell -> list Point -> M Writers unit)
    (file_path : string) (file : LasReader)
    : Writers * result (list Payload) :=
  match square_split (x_min (header file)) (y_min (header file))
                     (x_max (header file)) (y_max (header file)) 2 with
  | Raise e => ([], Raise e)
  | Ok sub_bounds =>
      let writers := map (fun _ => open_writer (header file)) sub_bounds in
      match try_finally (routing_body (router sub_bounds) file) close_writers writers with
      | (ws, Raise e) => (ws, Raise e)
      | (ws, Ok _) =>
          (ws, Ok (imap (fun i w => (file_path, Z.of_nat i, getvalue w)) ws))
      end
  end.

(** [partition_las], as written. *)
Definition partition_las : string -> LasReader -> Writers * result (list Payload) :=
  partition_las_with (fun sub_bounds points =>
    route_chunk points 0 (enumerate sub_bounds)).

(** [partition_las] with every mask evaluated on every chunk. *)
Definition partition_las_no_early_stop
  : string -> LasReader -> Writers * result (list Payload) :=
  partition_las_with (fun sub_bounds points =>
    route_chunk_all points 0 (enumerate sub_bounds)).

End Router.

(** ** Files, the processing engine and the raster merge *)

Module Raster.
Import Router.

(** A pixel array with its numpy [shape] [(bands, height, width)]. *)
Record Array : Type := mkArray {
  shape : Z * Z * Z;
  values : list Q
}.

(** An affine geo-transform (six coefficients). *)
Definition Affine : Type := list Q.

(** The values of a rasterio metadata dictionary. *)
Inductive MetaValue : Type :=
  | MStr (s : string)
  | MInt (n : Z)
  | MBool (b : bool)
  | MNum (q : Q)
  | MTransform (t : Affine).

(** A metadata dictionary: a Python [dict] with string keys. *)
Abbreviation Meta := (gmap string MetaValue).

(** A Python [bytes] object.  A LAZ payload and a GeoTIFF image are kept
    decoded: the GeoTIFF as the profile it was created with (metadata and
    creation options) and its pixels. *)
Inductive Bytes : Type :=
  | Laz (payload : LasPayload)
  | GTiff (profile : Meta) (pixels : Array)
  | Raw (data : list Z).

(** The file system: path to content. *)
Abbreviation FS := (gmap string Bytes).

(** [with open(name, 'wb') as f: f.write(data)] *)
Definition write_file (name : string) (data : Bytes) : M FS unit :=
  fun fs => (<[name := data]> fs, Ok tt).

(** [with open(name, 'rb') as f: f.read()] *)
Definition read_file (name : string) : M FS Bytes :=
  fun fs =>
    match fs !! name with
    | Some data => (fs, Ok data)
    | None => (fs, Raise FileNotFoundError)
    end.

(** [os.remove(name)] *)
Definition os_remove (name : string) : M FS unit :=
  fun fs =>
    match fs !! name with
    | Some _ => (delete name fs, Ok tt)
    | None => (fs, Raise FileNotFoundError)
    end.

(** An open rasterio dataset. *)
Record Dataset : Type := mkDataset {
  meta : Meta;
  pixels : Array
}.

(** The keys of [dataset.meta], rasterio's basic metadata. *)
Definition meta_keys : list string :=
  ["driver"; "dtype"; "nodata"; "width"; "height"; "count"; "crs"; "transform"].

Definition basic_meta (profile : Meta) : Meta :=
  filter (fun kv => kv.1 ∈ meta_keys) profile.

(** [rasterio.open(name)] *)
Definition rasterio_open (name : string) : M FS Dataset :=
  fun fs =>
    match fs !! name with
    | Some (GTiff profile px) =>
        (fs, Ok {| meta := basic_meta profile; pixels := px |})
    | _ => (fs, Raise (RasterioIOError name))
    end.

(** [with rio.open(name, 'w', **kwargs) as m: m.write(mosaic)] *)
Definition rio_write (name : string) (kwargs : Meta) (mosaic : Array) : M FS unit :=
  write_file name (GTiff kwargs mosaic).

(** [d.update(new)]: the keys of [new] win. *)
Definition update (d new : Meta) : Meta := new ∪ d.

(** [xs[0]] *)
Definition first {A} (xs : list A) : result A :=
  match xs with
  | a :: _ => Ok a
  | [] => Raise IndexError
  end.

(** [[f(x) for x in xs]] for an [f] with effects. *)
Fixpoint comprehension {S A B} (f : A -> M S B) (xs : list A) : M S (list B) :=
  match xs with
  | [] => ret []
  | a :: rest =>
      (b <-- f a ;;
       bs <-- comprehension f rest ;;
       ret (b :: bs))%py
  end.

(** A [for] loop that grows an accumulator. *)
Fixpoint for_acc {S A B} (xs : list A) (acc : B) (body : B -> A -> M S B) : M S B :=
  match xs with
  | [] => ret acc
  | a :: rest => (acc' <-- body acc a ;; for_acc rest acc' body)%py
  end.

(** *** The pipeline descriptions *)

Inductive Json : Type :=
  | JStr (s : string)
  | JInt (n : Z)
  | JNum (q : Q).

Definition Stage : Type := list (string * Json).
Definition Pipeline : Type := list Stage.

Definition dem_pipeline_json (laz_filename dem_filename : string) : Pipeline :=
  [ [("type", JStr "readers.las");
     ("filename", JStr laz_filename);
     ("spatialreference", JStr "EPSG:25830")];
    [("type", JStr "filters.reprojection");
     ("in_srs", JStr "EPSG:25830");
     ("out_srs", JStr "EPSG:25830")];
    [("type", JStr "filters.assign");
     ("assignment", JStr "Classification[:]=0")];
    [("type", JStr "filters.elm")];
    [("type", JStr "filters.outlier");
     ("method", JStr "radius");
     ("radius", JNum 1);
     ("min_k", JInt 4)];
    [("type", JStr "filters.smrf");
     ("ignore", JStr "Classification[7:7]");
     ("slope", JNum (2 # 10));
     ("window", JInt 16);
     ("threshold", JNum (45 # 100));
     ("scalar", JNum (12 # 10))];
    [("type", JStr "filters.range");
     ("limits", JStr "Classification[2:2]")];
    [("type", JStr "writers.gdal");
     ("gdaldriver", JStr "GTiff");
     ("nodata", JStr "-9999");
     ("output_type", JStr "max");
     ("resolution", JInt 1);
     ("filename", JStr dem_filename)] ].

Definition dsm_pipeline_json (laz_filename dsm_filename : string) : Pipeline :=
  [ [("type", JStr "readers.las");
     ("filename", JStr laz_filename);
     ("spatialreference", JStr "EPSG:25830")];
    [("type", JStr "filters.reprojection");
     ("in_srs", JStr "EPSG:25830");
     ("out_srs", JStr "EPSG:25830")];
    [("type", JStr "filters.outlier");
     ("method", JStr "radius");
     ("radius", JNum 1);
     ("min_k", JInt 4)];
    [("type", JStr "filters.range");
     ("limits", JStr "Classification![7:7]")];
    [("type", JStr "filters.range");
     ("limits", JStr "returnnumber[1:1]")];
    [("type", JStr "writers.gdal");
     ("gdaldriver", JStr "GTiff");
     ("nodata", JStr "-9999");
     ("output_type", JStr "max");
     ("resolution", JInt 1);
     ("filename", JStr dsm_filename)] ].

Section Workflow.

(** The external engines.  [pdal_execute p] stands for
    [pdal.Pipeline(json.dumps(p)).execute()], which reads and writes files;
    [merge] for [rasterio.merge.merge]. *)
Variable pdal_execute : Pipeline -> M FS Z.
Variable merge : list Dataset -> result (Array * Affine).

(** *** [create_dem] *)

(** Lines 86-148: the body of the [try]. *)
Definition create_dem_try (laz_filename dem_filename : string)
    (file_path : string) (partition : Z) (las_data : Bytes)
    : M FS (string * Z * Bytes) :=
  (write_file laz_filename las_data ;;;
   result <-- pdal_execute (dem_pipeline_json laz_filename dem_filename) ;;
   dem <-- read_file dem_filename ;;
   ret (file_path, partition, dem))%py.

(** Lines 150-158: the [finally] block. *)
Definition create_dem_finally (laz_filename dem_filename : string) : M FS unit :=
  (except_FileNotFoundError_pass (os_remove laz_filename) ;;;
   except_FileNotFoundError_pass (os_remove dem_filename))%py.

(** [tmp_prefix] is the path [tempfile.mktemp()] returned. *)
Definition create_dem (tmp_prefix : string)
    (file_path : string) (partition : Z) (las_data : Bytes)
    : M FS (string * Z * Bytes) :=
  let laz_filename := tmp_prefix +:+ ".laz" in
  let dem_filename := tmp_prefix +:+ "_dem.gtiff" in
  try_finally
    (create_dem_try laz_filename dem_filename file_path partition las_data)
    (create_dem_finally laz_filename dem_filename).

(** *** [create_models] *)

(** Lines 168-278: the body of the [try]. *)
Definition create_models_try (laz_filename dsm_filename dem_filename : string)
    (file_path : string) (partition : Z) (las_data : Bytes)
    : M FS (string * Z * Bytes * Bytes) :=
  (write_file laz_filename las_data ;;;
   result <-- pdal_execute (dsm_pipeline_json laz_filename dsm_filename) ;;
   result <-- pdal_execute (dem_pipeline_json laz_filename dem_filename) ;;
   dsm <-- read_file dsm_filename ;;
   dem <-- read_file dem_filename ;;
   ret (file_path, partition, dsm, dem))%py.

(** Lines 280-292: the [finally] block. *)
Definition create_models_finally (laz_filename dsm_filename dem_filename : string)
    : M FS unit :=
  (except_FileNotFoundError_pass (os_remove laz_filename) ;;;
   except_FileNotFoundError_pass (os_remove dsm_filename) ;;;
   except_FileNotFoundError_pass (os_remove dem_filename))%py.

Definition create_models (tmp_prefix : string)
    (file_path : string) (partition : Z) (las_data : Bytes)
    : M FS (string * Z * Bytes * Bytes) :=
  let laz_filename := tmp_prefix +:+ ".laz" in
  let dsm_filename := tmp_prefix +:+ "_dsm.gtiff" in
  let dem_filename := tmp_prefix +:+ "_dem.gtiff" in
  try_finally
    (create_models_try laz_filename dsm_filename dem_filename
       file_path partition las_data)
    (create_models_finally laz_filename dsm_filename dem_filename).

(** *** [merge_dem_partitions] *)

(** Lines 336-345: the removal of the merged file and of the part files. *)
Definition merge_dem_cleanup (file_dem_merged : string) (dem_files : list string)
    : M FS unit :=
  (except_FileNotFoundError_pass (os_remove file_dem_merged) ;;;
   for_each dem_files (fun f => except_FileNotFoundError_pass (os_remove f)))%py.

(** [tmp_file_prefix] is the path [tempfile.mktemp()] returned. *)
Definition merge_dem_partitions (tmp_file_prefix : string)
    (key : string) (partitions : list (string * Z * Bytes))
    : M FS (string * Bytes) :=
  let file_path := key in
  (dem_files <-- for_acc partitions [] (fun dem_files partition =>
     let '(_, i, dem) := partition in
     let tmp_dem_file := tmp_file_prefix +:+ "_dem-part" +:+ pretty i +:+ ".gtiff" in
     write_file tmp_dem_file dem ;;;
     ret (dem_files ++ [tmp_dem_file])) ;;
   dems <-- comprehension rasterio_open dem_files ;;
   merged <-- lift (merge dems) ;;
   let '(mosaic_dem, output_dem) := merged in
   dems_0 <-- lift (first dems) ;;
   let dem_output_meta :=
     update (meta dems_0)
       (<["driver" := MStr "GTiff"]>
        (<["blockxsize" := MInt 256]>
        (<["blockysize" := MInt 256]>
        (<["tiled" := MBool true]>
        (<["height" := MInt (shape mosaic_dem).1.2]>
        (<["width" := MInt (shape mosaic_dem).2]>
        (<["transform" := MTransform output_dem]> ∅))))))) in
   let file_dem_merged := tmp_file_prefix +:+ "_dem-merged.gtiff" in
   rio_write file_dem_merged dem_output_meta mosaic_dem ;;;
   dem_merged <-- read_file file_dem_merged ;;
   merge_dem_cleanup file_dem_merged dem_files ;;;
   ret (file_path, dem_merged))%py.

(** *** [merge_partitions] *)

Definition merge_partitions (tmp_file_prefix : string)
    (key : string) (partitions : list (string * Z * Bytes * Bytes))
    : M FS (string * Bytes * Bytes) :=
  let file_path := key in
  (files <-- for_acc partitions ([], []) (fun files partition =>
     let '(dsm_files, dem_files) := files in
     let '(_, i, dsm, dem) := partition in
     let tmp_dsm_file := tmp_file_prefix +:+ "_dsm-part" +:+ pretty i +:+ ".gtiff" in
     write_file tmp_dsm_file dsm ;;;
     let tmp_dem_file := tmp_file_prefix +:+ "_dem-part" +:+ pretty i +:+ ".gtiff" in
     write_file tmp_dem_file dem ;;;
     ret (dsm_files ++ [tmp_dsm_file], dem_files ++ [tmp_dem_file])) ;;
   let '(dsm_files, dem_files) := files in
   dsms <-- comprehension rasterio_open dsm_files ;;
   dems <-- comprehension rasterio_open dem_files ;;
   merged_dsm <-- lift (merge dsms) ;;
   let '(mosaic_dsm, output_dsm) := merged_dsm in
   merged_dem <-- lift (merge dems) ;;
   let '(mosaic_dem, output_dem) := merged_dem in
   dsms_0 <-- lift (first dsms) ;;
   let dsm_output_meta :=
     update (meta dsms_0)
       (<["driver" := MStr "GTiff"]>
        (<["height" := MInt (shape mosaic_dsm).1.2]>
        (<["width" := MInt (shape mosaic_dsm).2]>
        (<["transform" := MTransform output_dsm]> ∅)))) in
   let file_dsm_merged := tmp_file_prefix +:+ "_dsm-merged.gtiff" in
   rio_write file_dsm_merged dsm_output_meta mosaic_dsm ;;;
   dems_0 <-- lift (first dems) ;;
   let dem_output_meta :=
     update (meta dems_0)
       (<["driver" := MStr "GTiff"]>
        (<["height" := MInt (shape mosaic_dem).1.2]>
        (<["width" := MInt (shape mosaic_dem).2]>
        (<["transform" := MTransform output_dem]> ∅)))) in
   let file_dem_merged := tmp_file_prefix +:+ "_dem-merged.gtiff" in
   rio_write file_dem_merged dem_output_meta mosaic_dem ;;;
   dsm_merged <-- read_file file_dsm_merged ;;
   os_remove file_dsm_merged ;;;
   dem_merged <-- read_file file_dem_merged ;;
   os_remove file_dem_merged ;;;
   for_each dsm_files os_remove ;;;
   for_each dem_files os_remove ;;;
   ret (file_path, dsm_merged, dem_merged))%py.

End Workflow.

(** The storage hints of line 319-321: 256 x 256 block tiling. *)
Definition tiled_256 (b : Bytes) : Prop :=
  exists profile px, b = GTiff profile px /\
    profile !! "tiled" = Some (MBool true) /\
    profile !! "blockxsize" = Some (MInt 256) /\
    profile !! "blockysize" = Some (MInt 256).

(** A GeoTIFF created without any tiling hint. *)
Definition untiled (b : Bytes) : Prop :=
  exists profile px, b = GTiff profile px /\
    profile !! "tiled" = None /\
    profile !! "blockxsize" = None /\
    profile !! "blockysize" = None.

End Raster.

Import Bounds Router Raster.

(** ** Notions used by the statements *)

(** What routing never touches: the close count of each writer. *)
Definition frame (ws : Writers) : list nat := w_closed <$> ws.

Definition keeps_frame {A} (m : M Writers A) : Prop :=
  forall ws, frame (m ws).1 = frame ws.

(** What routing maintains: the header of each writer is the reset copy
    of the source header [h0], grown with the points written so far. *)
Definition tracked (h0 : LasHeader) (ws : Writers) : Prop :=
  Forall (fun w => w_header w = grow (partial_reset h0) (w_points w)) ws.

Definition keeps_tracked {A} (m : M Writers A) : Prop :=
  forall h0 ws, tracked h0 ws -> tracked h0 (m ws).1.

(** What the statements need of a router: it leaves the close counts
    alone and keeps the headers in step. *)
Definition sound_router (router : list Cell -> list Point -> M Writers unit) : Prop :=
  forall sub_bounds points,
    keeps_frame (router sub_bounds points) /\
    keeps_tracked (router sub_bounds points).

(** The header of the payload of a writer that was opened on the source
    header [h0], received [points] and was closed. *)
Definition written_header (h0 : LasHeader) (points : list Point) : LasHeader :=
  final_header (grow (partial_reset h0) points).

(** The matches of one chunk summed over a list of cells: what
    [point_piped] reaches when no [break] is taken. *)
Definition tally (points : list Point) (sub_bounds : list (nat * Cell)) : Z :=
  foldr (fun ic acc => np_sum (chunk_mask points ic.2) + acc) 0 sub_bounds.

(** The points of each returned payload, in partition order. *)
Definition routed (run : Writers * result (list Payload))
  : result (list (list Point)) :=
  (payloads <- run.2 ;; Ok ((fun p => pl_points p.2) <$> payloads))%py.

(** ** Concrete scenarios *)

(** The scenario of the specification: bounding box [(0,0,100,100)]. *)
Definition square_header (point_count : Z) : LasHeader :=
  {| x_min := 0; y_min := 0; x_max := 100; y_max := 100;
     point_count := point_count; point_format := 3 |}.

Definition scenario_cells : list Cell :=
  [ (0, 0, 50, 50); (0, 50, 50, 100); (50, 0, 100, 50); (50, 50, 100, 100) ]%float.

Definition point_at (px py : float) : Point :=
  {| x := px; y := py; z := 7; intensity := 120;
     return_number := 1; classification := 2 |}.

(** The header of a payload holding [n] points with the bounds given. *)
Definition payload_header (x_min y_min x_max y_max : float) (n : Z) : LasHeader :=
  {| x_min := x_min; y_min := y_min; x_max := x_max; y_max := y_max;
     point_count := n; point_format := 3 |}.

(** The header of a payload that received no point. *)
Definition empty_header : LasHeader := payload_header 0 0 0 0 0.

Definition empty_payload : LasPayload :=
  {| pl_header := empty_header; pl_points := [] |}.

Definition p_centre : Point := point_at 50 50.
Definition p_inner : Point := point_at 25 25.
Definition p_far : Point := point_at 75 75.

(** One chunk holding only the point on the common corner of the cells. *)
Definition centre_only : LasReader :=
  {| header := square_header 1; chunks := [Ok [p_centre]] |}.

(** One chunk holding the corner point and an interior point. *)
Definition centre_and_inner : LasReader :=
  {| header := square_header 2; chunks := [Ok [p_centre; p_inner]] |}.

(** One chunk in which the tally meets the chunk length only at the last
    cell. *)
Definition centre_and_far : LasReader :=
  {| header := square_header 4; chunks := [Ok [p_centre; p_far; p_far; p_far]] |}.

(** An interior point only: three partitions receive nothing. *)
Definition inner_only : LasReader :=
  {| header := square_header 1; chunks := [Ok [p_inner]] |}.

Definition inner_only_payloads : list Payload :=
  [ ("cloud.laz", 0,
     {| pl_header := payload_header 25 25 25 25 1; pl_points := [p_inner] |});
    ("cloud.laz", 1, empty_payload);
    ("cloud.laz", 2, empty_payload);
    ("cloud.laz", 3, empty_payload) ].

(** A source whose box does not divide evenly in binary64, and one point
    on the upper [x] edge of the box. *)
Definition uneven_header : LasHeader :=
  {| x_min := 762.28; y_min := 10; x_max := 764.4; y_max := 20;
     point_count := 1; point_format := 3 |}.

Definition p_edge : Point := point_at 764.4 15.

Definition edge_only : LasReader :=
  {| header := uneven_header; chunks := [Ok [p_edge]] |}.

(** A stream that breaks off after its first chunk. *)
Definition truncated : LasReader :=
  {| header := square_header 2;
     chunks := [Ok [p_inner]; Raise (LaspyException "truncated stream")] |}.

(** A stand-in for [rasterio.merge.merge] in the concrete runs: it
    indexes its first source, as rasterio does, and returns that tile. *)
Definition first_tile_merge (sources : list Dataset) : result (Array * Affine) :=
  match sources with
  | d :: _ => Ok (pixels d, [1; 0; 0; 0; -1; 0]%Q)
  | [] => Raise IndexError
  end.

(** A one-pixel GeoTIFF written without creation options. *)
Definition tile : Bytes :=
  GTiff (<["driver" := MStr "GTiff"]>
         (<["width" := MInt 1]>
         (<["height" := MInt 1]>
         (<["count" := MInt 1]> ∅))))
        {| shape := (1, 1, 1); values := [412%Q] |}.

(** Two tiles that carry the same partition index. *)
Definition same_index_tiles : list (string * Z * Bytes * Bytes) :=
  [ ("cloud.laz", 0, tile, tile); ("cloud.laz", 0, tile, tile) ].

Definition same_index_dem_tiles : list (string * Z * Bytes) :=
  [ ("cloud.laz", 0, tile); ("cloud.laz", 0, tile) ].

(** The products of merging the single tile of partition 0. *)
Definition merged_dem_only : Bytes :=
  match (merge_dem_partitions first_tile_merge "/tmp/tmpq1" "cloud.laz"
           [("cloud.laz", 0, tile)] ∅).2 with
  | Ok (_, dem) => dem
  | Raise _ => Raw []
  end.

Definition merged_models : Bytes * Bytes :=
  match (merge_partitions first_tile_merge "/tmp/tmpq1" "cloud.laz"
           [("cloud.laz", 0, tile, tile)] ∅).2 with
  | Ok (_, dsm, dem) => (dsm, dem)
  | Raise _ => (Raw [], Raw [])
  end.

(** ** Notions used by the further properties *)

(** The points of a list that the mask of a cell selects, in order. *)
Definition cell_points (c : Cell) (points : list Point) : list Point :=
  List.filter (fun p => in_cell (x p) (y p) c) points.

(** The cells whose mask selects a point. *)
Definition matching_cells (p : Point) (cells : list Cell) : list Cell :=
  List.filter (fun c => in_cell (x p) (y p) c) cells.

(** The points of all chunks that were read, in stream order. *)
Definition source_points (stream : list (result (list Point))) : list Point :=
  stream ≫= fun r => match r with Ok points => points | Raise _ => [] end.

(** The points each writer holds. *)
Definition points_of (ws : Writers) : list (list Point) := w_points <$> ws.

(** The temporary paths of the merge functions (lines 305, 328, 361,
    366, 389 and 403). *)
Definition dem_part_file (tmp_file_prefix : string) (i : Z) : string :=
  tmp_file_prefix +:+ "_dem-part" +:+ pretty i +:+ ".gtiff".

Definition dsm_part_file (tmp_file_prefix : string) (i : Z) : string :=
  tmp_file_prefix +:+ "_dsm-part" +:+ pretty i +:+ ".gtiff".

Definition dem_merged_file (tmp_file_prefix : string) : string :=
  tmp_file_prefix +:+ "_dem-merged.gtiff".

Definition dsm_merged_file (tmp_file_prefix : string) : string :=
  tmp_file_prefix +:+ "_dsm-merged.gtiff".

(** What [rasterio.open] makes of a file content. *)
Definition dataset_of (content : Bytes) : option Dataset :=
  match content with
  | GTiff profile px => Some {| meta := basic_meta profile; pixels := px |}
  | _ => None
  end.

(** ** Further concrete scenarios *)

(** A source whose header declares no point. *)
Definition no_points : LasReader :=
  {| header := square_header 0; chunks := [] |}.

(** Two chunks, no point on an edge shared by two cells. *)
Definition two_chunks : LasReader :=
  {| header := square_header 3;
     chunks := [Ok [p_inner; p_far]; Ok [p_inner]] |}.

Definition two_chunks_payloads : list Payload :=
  [ ("cloud.laz", 0,
     {| pl_header := payload_header 25 25 25 25 2;
        pl_points := [p_inner; p_inner] |});
    ("cloud.laz", 1, empty_payload);
    ("cloud.laz", 2, empty_payload);
    ("cloud.laz", 3,
     {| pl_header := payload_header 75 75 75 75 1; pl_points := [p_far] |}) ].

(** The payloads the code returns for [centre_and_inner]. *)
Definition centre_and_inner_payloads : list Payload :=
  [ ("cloud.laz", 0,
     {| pl_header := payload_header 25 25 50 50 2;
        pl_points := [p_centre; p_inner] |});
    ("cloud.laz", 1, empty_payload);
    ("cloud.laz", 2, empty_payload);
    ("cloud.laz", 3, empty_payload) ].

(** A stand-in for the PDAL engine in the concrete runs: it writes one
    fixed image to the [filename] of the last stage of the pipeline. *)
Definition stage_filename (stage : Stage) : option string :=
  match list_find (fun kv => kv.1 = "filename") stage with
  | Some (_, (_, JStr f)) => Some f
  | _ => None
  end.

Definition writing_engine (image : Bytes) (p : Pipeline) : M FS Z :=
  fun fs =>
    match last p ≫= stage_filename with
    | Some f => (<[f := image]> fs, Ok 1)
    | None => (fs, Raise (PdalError "no writer stage"))
    end.

Definition one_point_cloud : Bytes :=
  Laz {| pl_header := square_header 1; pl_points := [p_inner] |}.

(** The dataset [rasterio.open] makes of [tile]. *)
Definition tile_dataset : Dataset :=
  {| meta := basic_meta (<["driver" := MStr "GTiff"]>
                         (<["width" := MInt 1]>
                         (<["height" := MInt 1]>
                         (<["count" := MInt 1]> ∅))));
     pixels := {| shape := (1, 1, 1); values := [412%Q] |} |}.

(** Tiles of the partitions 0 and 1. *)
Definition two_dem_tiles : list (string * Z * Bytes) :=
  [ ("cloud.laz", 0, tile); ("cloud.laz", 1, tile) ].

Definition two_model_tiles : list (string * Z * Bytes * Bytes) :=
  [ ("cloud.laz", 0, tile, tile); ("cloud.laz", 1, tile, tile) ].

(** A tile that is no GeoTIFF. *)
Definition unreadable_tiles : list (string * Z * Bytes) :=
  [ ("cloud.laz", 0, Raw [73; 73; 42]) ].

(** * Properties *)

(** ** Running the monad *)

Lemma bind_run {S A B} (m : M S A) (k : A -> M S B) s :
  bind m k s = match m s with
               | (s1, Ok a) => k a s1
               | (s1, Raise e) => (s1, Raise e)
               end.
Proof. done. Qed.

Lemma bind_Ok_inv {S A B} (m : M S A) (k : A -> M S B) s s' b :
  bind m k s = (s', Ok b) ->
  exists a s1, m s = (s1, Ok a) /\ k a s1 = (s', Ok b).
Proof.
  unfold bind. destruct (m s) as [s1 [a|e]]; [|done]. eauto.
Qed.

Lemma lift_Ok_inv {S A} (r : result A) (s s' : S) a :
  lift r s = (s', Ok a) -> s' = s /\ r = Ok a.
Proof. unfold lift. intros ?; by simplify_eq. Qed.

Lemma bind_fails_left {S A B} (m : M S A) (k : A -> M S B) s :
  is_ok (m s).2 = false -> is_ok (bind m k s).2 = false.
Proof. unfold bind. by destruct (m s) as [s1 [a|e]]. Qed.

Lemma bind_fails_right {S A B} (m : M S A) (k : A -> M S B) s :
  (forall a s1, is_ok (k a s1).2 = false) -> is_ok (bind m k s).2 = false.
Proof. intros Hk. unfold bind. destruct (m s) as [s1 [a|e]]; [apply Hk | done]. Qed.

Lemma try_finally_quiet {S A} (body : M S A) (fin : M S unit) s :
  (forall s1, (fin s1).2 = Ok tt) ->
  (try_finally body fin s).2 = (body s).2.
Proof.
  intros Hfin. unfold try_finally. destruct (body s) as [s1 r].
  specialize (Hfin s1). destruct (fin s1) as [s2 [[]|e]]; simpl in *; done.
Qed.

(** ** [square_split] *)

(** The two nested loops emit the rows of the grid one after the other. *)
Lemma foldl_append_one {A B} (g : B -> A) (l : list B) (acc : list A) :
  foldl (fun bounds j => bounds ++ [g j]) acc l = acc ++ (g <$> l).
Proof.
  revert acc; induction l as [|b l IH]; intros acc; simpl.
  - by rewrite app_nil_r.
  - rewrite IH. by rewrite <- app_assoc.
Qed.

Lemma foldl_rows {A B} (g : B -> B -> A) (r l : list B) (acc : list A) :
  foldl (fun bounds i => foldl (fun bounds j => bounds ++ [g i j]) bounds r) acc l
  = acc ++ (l ≫= fun i => g i <$> r).
Proof.
  revert acc; induction l as [|b l IH]; intros acc; csimpl.
  - by rewrite app_nil_r.
  - rewrite IH, foldl_append_one. by rewrite <- app_assoc.
Qed.



Lemma elem_of_rows {A B} (g : B -> B -> A) (r : list B) (a : A) :
  a ∈ (r ≫= fun i => g i <$> r) <-> exists i j, i ∈ r /\ j ∈ r /\ a = g i j.
Proof.
  rewrite list_elem_of_bind. split.
  - intros (i & Ha & Hi). apply list_elem_of_fmap in Ha as (j & -> & Hj). eauto.
  - intros (i & j & Hi & Hj & ->). exists i. split; [|done].
    apply list_elem_of_fmap. eauto.
Qed.



Lemma elem_of_range n i : i ∈ range n <-> 0 <= i < n.
Proof.
  unfold range. rewrite list_elem_of_fmap. split.
  - intros (k & -> & Hk). apply elem_of_seq in Hk. lia.
  - intros Hi. exists (Z.to_nat i). split; [lia|]. apply elem_of_seq. lia.
Qed.

Lemma int_too_large_pos : 2 < int_too_large.
Proof. by vm_compute. Qed.

(** [int_too_large] is the threshold of the conversion: the integer
    below it rounds to the largest finite float, and it rounds out of
    range. *)
Lemma int_too_large_rounding :
  float_of_Z (int_too_large - 1) = f64_max /\
  float_of_Z int_too_large = infinity /\
  float_of_Z (- int_too_large) = neg_infinity.
Proof. by vm_compute. Qed.

Lemma int_to_float_small n :
  Z.abs n < int_too_large -> int_to_float n = Ok (float_of_Z n).
Proof.
  intros Hn. unfold int_to_float.
  by destruct (Z.ltb_spec (Z.abs n) int_too_large); [|lia].
Qed.

Lemma int_to_float_large n :
  int_too_large <= Z.abs n -> int_to_float n = Raise OverflowError.
Proof.
  intros Hn. unfold int_to_float.
  by destruct (Z.ltb_spec (Z.abs n) int_too_large); [lia|].
Qed.

(** The indices of [range(n)] convert whenever [n] does. *)
Lemma int_to_float_range n i :
  is_ok (int_to_float n) = true -> i ∈ range n ->
  int_to_float i = Ok (float_of_Z i).
Proof.
  intros Hn Hi. apply elem_of_range in Hi. apply int_to_float_small.
  unfold int_to_float in Hn.
  destruct (Z.ltb_spec (Z.abs n) int_too_large); [lia|done].
Qed.

Lemma truediv_nonzero a b :
  b <> 0 -> Z.abs b < int_too_large -> truediv a b = Ok (a / float_of_Z b)%float.
Proof.
  intros Hb Hsmall. unfold truediv. rewrite int_to_float_small by done.
  simpl. by destruct (Z.eqb_spec b 0).
Qed.

Lemma truediv_zero a : truediv a 0 = Raise ZeroDivisionError.
Proof.
  unfold truediv. rewrite int_to_float_small; [done|].
  pose proof int_too_large_pos. lia.
Qed.

Lemma truediv_large a b :
  int_too_large <= Z.abs b -> truediv a b = Raise OverflowError.
Proof. intros Hb. unfold truediv. by rewrite int_to_float_large. Qed.

Lemma square_split_rows x_min y_min x_max y_max n :
  n <> 0 -> Z.abs n < int_too_large ->
  square_split x_min y_min x_max y_max n =
    Ok (range n ≫= fun i =>
          split_cell x_min y_min ((x_max - x_min) / float_of_Z n)
                     ((y_max - y_min) / float_of_Z n) i <$> range n).
Proof.
  intros Hn Hsmall. unfold square_split.
  rewrite !truediv_nonzero by done.
  simpl. by rewrite foldl_rows.
Qed.

Lemma square_split_two (a b c d : float) :
  exists c0 c1 c2 c3, square_split a b c d 2 = Ok [c0; c1; c2; c3].
Proof.
  rewrite square_split_rows; [by repeat eexists | done |].
  pose proof int_too_large_pos. lia.
Qed.




(** C4, at the failing inputs.  The box [(762.28, 10, 764.4, 20)]
    satisfies the hypotheses of the claim.  Split by 2, its last column
    ends at [764.3999999999999], below [x_max]: the point [(764.4, 15)]
    is in the box and in none of the four cells, and [partition_las]
    writes it to no payload.  For the box [(-0.3, 0, 0.1, 1)] and
    [n = 1] the single cell ends at [0.10000000000000003], beyond
    [x_max]: it is not the box. *)
Theorem square_split_leaves_gap :
  ((762.28 <? 764.4)%float = true /\ (10 <? 20)%float = true /\
   square_split 762.28 10 764.4 20 2 =
     Ok [ (762.28, 10, 763.3399999999999, 15);
          (762.28, 15, 763.3399999999999, 20);
          (763.3399999999999, 10, 764.3999999999999, 15);
          (763.3399999999999, 15, 764.3999999999999, 20) ]%float /\
   (764.3999999999999 <? 764.4)%float = true /\
   in_cell 764.4 15 (762.28, 10, 764.4, 20)%float = true /\
   (cells <- square_split 762.28 10 764.4 20 2 ;;
    Ok (existsb (in_cell 764.4 15) cells))%py = Ok false /\
   routed (partition_las "cloud.laz" edge_only) = Ok [ []; []; []; [] ]) /\
  ((-0.3 <? 0.1)%float = true /\ (0 <? 1)%float = true /\
   square_split (-0.3) 0 0.1 1 1 = Ok [(-0.3, 0, 0.10000000000000003, 1)%float] /\
   (0.1 <? 0.10000000000000003)%float = true).
Proof.
  repeat split; by vm_compute.
Qed.

(** C5, as the code has it.  For a split factor [n <= 0] [square_split]
    raises no [InvalidArgument]: for [n = 0] the first division raises
    [ZeroDivisionError]; for [n < 0] both ranges are empty and the empty
    list is returned, unless [n] is too large to convert to a float,
    which raises [OverflowError]. *)
Theorem square_split_nonpositive (x_min y_min x_max y_max : float) (n : Z) :
  n <= 0 ->
  square_split x_min y_min x_max y_max n =
    if n =? 0 then Raise ZeroDivisionError
    else if - int_too_large <? n then Ok []
    else Raise OverflowError.
Proof.
  intros Hn. destruct (Z.eqb_spec n 0) as [->|Hne].
  - unfold square_split. by rewrite truediv_zero.
  - destruct (Z.ltb_spec (- int_too_large) n).
    + rewrite square_split_rows by lia.
      unfold range. replace (Z.to_nat n) with 0%nat by lia. done.
    + unfold square_split. rewrite truediv_large by lia. done.
Qed.

Lemma square_split_nonpositive_witness :
  square_split 0 0 100 100 (-3) =
    if -3 =? 0 then Raise ZeroDivisionError
    else if - int_too_large <? -3 then Ok []
    else Raise OverflowError.
Proof.
  apply (square_split_nonpositive 0 0 100 100 (-3)). lia.
Defined.

(** C5 as stated fails: a negative split factor returns the empty list,
    and zero fails with another error. *)
Lemma square_split_no_invalid_argument :
  square_split 0 0 100 100 (-1) = Ok [] /\
  square_split 0 0 100 100 0 = Raise ZeroDivisionError.
Proof. split; by vm_compute. Qed.

(** ** [partition_las]: what routing leaves alone *)

Lemma keeps_frame_ret {A} (a : A) : keeps_frame (ret a).
Proof. by intros ws. Qed.

Lemma keeps_frame_raise {A} e : keeps_frame (@raise Writers A e).
Proof. by intros ws. Qed.

Lemma keeps_frame_lift {A} (r : result A) : keeps_frame (lift r).
Proof. by intros ws. Qed.

Lemma keeps_frame_bind {A B} (m : M Writers A) (k : A -> M Writers B) :
  keeps_frame m -> (forall a, keeps_frame (k a)) -> keeps_frame (bind m k).
Proof.
  intros Hm Hk ws. unfold bind. specialize (Hm ws).
  destruct (m ws) as [ws1 [a|e]]; simpl in *; [|done].
  by rewrite Hk.
Qed.

Lemma keeps_frame_progress count point_count :
  keeps_frame (@progress Writers count point_count).
Proof.
  unfold progress. apply keeps_frame_bind; [apply keeps_frame_lift|].
  intros; apply keeps_frame_ret.
Qed.

Lemma keeps_frame_writers_write i pts : keeps_frame (writers_write i pts).
Proof.
  intros ws. unfold writers_write.
  destruct (ws !! i) as [w|] eqn:E; [|done].
  unfold frame. cbn [fst]. rewrite list_fmap_insert.
  apply list_insert_id. by rewrite list_lookup_fmap, E.
Qed.

Lemma keeps_frame_route_cell points i c piped :
  keeps_frame (route_cell points i c piped).
Proof.
  unfold route_cell. apply keeps_frame_bind.
  - destruct (np_any _); [apply keeps_frame_writers_write | apply keeps_frame_ret].
  - intros; apply keeps_frame_ret.
Qed.

Lemma keeps_frame_route_chunk points piped sub_bounds :
  keeps_frame (route_chunk points piped sub_bounds).
Proof.
  revert piped; induction sub_bounds as [|[i c] rest IH]; intros piped; simpl.
  - apply keeps_frame_ret.
  - apply keeps_frame_bind; [apply keeps_frame_route_cell|].
    intros piped'. destruct (_ =? _); [apply keeps_frame_ret | apply IH].
Qed.

Lemma keeps_frame_route_chunks router point_count count stream :
  (forall points, keeps_frame (router points)) ->
  keeps_frame (route_chunks router point_count count stream).
Proof.
  intros Hr. revert count; induction stream as [|[points|e] rest IH];
    intros count; simpl.
  - apply keeps_frame_ret.
  - apply keeps_frame_bind; [apply keeps_frame_progress|]. intros _.
    apply keeps_frame_bind; [apply Hr|]. intros _. apply IH.
  - apply keeps_frame_raise.
Qed.

Lemma keeps_frame_routing_body router file :
  (forall points, keeps_frame (router points)) ->
  keeps_frame (routing_body router file).
Proof.
  intros Hr. unfold routing_body.
  apply keeps_frame_bind; [by apply keeps_frame_route_chunks|]. intros count.
  apply keeps_frame_bind; [apply keeps_frame_progress|]. intros _.
  apply keeps_frame_ret.
Qed.

Lemma keeps_frame_router_early sub_bounds points :
  keeps_frame (route_chunk points 0 (enumerate sub_bounds)).
Proof. apply keeps_frame_route_chunk. Qed.

Lemma frame_replicate ws k n :
  frame ws = replicate k n ->
  length ws = k /\ Forall (fun w => w_closed w = n) ws.
Proof.
  revert k; induction ws as [|w ws IH]; intros [|k] E; simplify_eq/=; [done|].
  destruct (IH k) as [Hl Hf]; [done|]. split; [by f_equal|]. by constructor.
Qed.

(** ** [partition_las]: the headers of the writers *)

Lemma grow_app h l1 l2 : grow h (l1 ++ l2) = grow (grow h l1) l2.
Proof. unfold grow. by rewrite foldl_app. Qed.

Lemma point_format_grow h points : point_format (grow h points) = point_format h.
Proof.
  unfold grow. revert h. induction points as [|p points IH]; intros h; simpl; [done|].
  by rewrite IH.
Qed.

Lemma point_count_grow h points :
  point_count (grow h points) = point_count h + Z.of_nat (length points).
Proof.
  unfold grow. revert h. induction points as [|p points IH]; intros h; simpl.
  - lia.
  - rewrite IH. simpl. lia.
Qed.

Lemma point_format_written h0 points :
  point_format (written_header h0 points) = point_format h0.
Proof.
  unfold written_header, final_header.
  destruct (_ =? _); simpl; by rewrite point_format_grow.
Qed.

Lemma point_count_written h0 points :
  point_count (written_header h0 points) = Z.of_nat (length points).
Proof.
  unfold written_header, final_header.
  destruct (_ =? _); simpl; by rewrite point_count_grow.
Qed.

Lemma written_header_nil h0 :
  written_header h0 [] =
    {| x_min := 0; y_min := 0; x_max := 0; y_max := 0;
       point_count := 0; point_format := point_format h0 |}.
Proof. done. Qed.

Lemma keeps_tracked_ret {A} (a : A) : keeps_tracked (ret a).
Proof. by intros h0 ws. Qed.

Lemma keeps_tracked_raise {A} e : keeps_tracked (@raise Writers A e).
Proof. by intros h0 ws. Qed.

Lemma keeps_tracked_lift {A} (r : result A) : keeps_tracked (lift r).
Proof. by intros h0 ws. Qed.

Lemma keeps_tracked_bind {A B} (m : M Writers A) (k : A -> M Writers B) :
  keeps_tracked m -> (forall a, keeps_tracked (k a)) -> keeps_tracked (bind m k).
Proof.
  intros Hm Hk h0 ws Hws. unfold bind. specialize (Hm h0 ws Hws).
  destruct (m ws) as [ws1 [a|e]]; simpl in *; [|done].
  by apply Hk.
Qed.

Lemma keeps_tracked_progress count point_count :
  keeps_tracked (@progress Writers count point_count).
Proof.
  unfold progress. apply keeps_tracked_bind; [apply keeps_tracked_lift|].
  intros; apply keeps_tracked_ret.
Qed.

Lemma keeps_tracked_writers_write i pts : keeps_tracked (writers_write i pts).
Proof.
  intros h0 ws Hws. unfold writers_write.
  destruct (ws !! i) as [w|] eqn:E; [|done].
  cbn [fst]. apply Forall_insert; [done|].
  eapply Forall_lookup_1 in Hws; [|exact E].
  simpl. by rewrite grow_app, Hws.
Qed.

Lemma keeps_tracked_route_cell points i c piped :
  keeps_tracked (route_cell points i c piped).
Proof.
  unfold route_cell. apply keeps_tracked_bind.
  - destruct (np_any _); [apply keeps_tracked_writers_write | apply keeps_tracked_ret].
  - intros; apply keeps_tracked_ret.
Qed.

Lemma keeps_tracked_route_chunk points piped sub_bounds :
  keeps_tracked (route_chunk points piped sub_bounds).
Proof.
  revert piped; induction sub_bounds as [|[i c] rest IH]; intros piped; simpl.
  - apply keeps_tracked_ret.
  - apply keeps_tracked_bind; [apply keeps_tracked_route_cell|].
    intros piped'. destruct (_ =? _); [apply keeps_tracked_ret | apply IH].
Qed.

Lemma keeps_tracked_route_chunk_all points piped sub_bounds :
  keeps_tracked (route_chunk_all points piped sub_bounds).
Proof.
  revert piped; induction sub_bounds as [|[i c] rest IH]; intros piped; simpl.
  - apply keeps_tracked_ret.
  - apply keeps_tracked_bind; [apply keeps_tracked_route_cell|]. intros; apply IH.
Qed.

Lemma keeps_tracked_route_chunks router point_count count stream :
  (forall points, keeps_tracked (router points)) ->
  keeps_tracked (route_chunks router point_count count stream).
Proof.
  intros Hr. revert count; induction stream as [|[points|e] rest IH];
    intros count; simpl.
  - apply keeps_tracked_ret.
  - apply keeps_tracked_bind; [apply keeps_tracked_progress|]. intros _.
    apply keeps_tracked_bind; [apply Hr|]. intros _. apply IH.
  - apply keeps_tracked_raise.
Qed.

Lemma keeps_tracked_routing_body router file :
  (forall points, keeps_tracked (router points)) ->
  keeps_tracked (routing_body router file).
Proof.
  intros Hr. unfold routing_body.
  apply keeps_tracked_bind; [by apply keeps_tracked_route_chunks|]. intros count.
  apply keeps_tracked_bind; [apply keeps_tracked_progress|]. intros _.
  apply keeps_tracked_ret.
Qed.

Lemma tracked_open_writers (h0 : LasHeader) (cells : list Cell) :
  tracked h0 (map (fun _ => open_writer h0) cells).
Proof. induction cells; by constructor. Qed.

Lemma sound_router_early :
  sound_router (fun sub_bounds points => route_chunk points 0 (enumerate sub_bounds)).
Proof.
  intros sub_bounds points.
  split; [apply keeps_frame_route_chunk | apply keeps_tracked_route_chunk].
Qed.

(** The shape of every run: four writers are opened on the source header,
    the [try] body runs, all writers are closed, and the payloads are
    read off only when the body did not raise. *)
Lemma partition_las_with_unfold router file_path file :
  sound_router router ->
  exists sub_bounds ws1 rb,
    square_split (x_min (header file)) (y_min (header file))
                 (x_max (header file)) (y_max (header file)) 2 = Ok sub_bounds /\
    routing_body (router sub_bounds) file
      (map (fun _ => open_writer (header file)) sub_bounds) = (ws1, rb) /\
    frame ws1 = replicate 4 0%nat /\
    tracked (header file) ws1 /\
    partition_las_with router file_path file =
      (close <$> ws1,
       match rb with
       | Raise e => Raise e
       | Ok _ => Ok (imap (fun i w => (file_path, Z.of_nat i, getvalue w))
                          (close <$> ws1))
       end).
Proof.
  intros Hr. unfold partition_las_with.
  destruct (square_split_two (x_min (header file)) (y_min (header file))
              (x_max (header file)) (y_max (header file)))
    as (c0 & c1 & c2 & c3 & ->).
  set (writers := map _ _).
  destruct (routing_body (router [c0; c1; c2; c3]) file writers) as [ws1 rb] eqn:E.
  exists [c0; c1; c2; c3], ws1, rb.
  split; [done|]. split; [done|].
  replace ws1 with (routing_body (router [c0; c1; c2; c3]) file writers).1
    by by rewrite E.
  split; [|split].
  - by rewrite (keeps_frame_routing_body _ _ (fun points => proj1 (Hr _ points)) writers).
  - apply (keeps_tracked_routing_body _ _ (fun points => proj2 (Hr _ points))).
    apply tracked_open_writers.
  - rewrite E. unfold try_finally. rewrite E. unfold close_writers. by destruct rb.
Qed.

Lemma route_chunks_failed_read router point_count count stream ws :
  (exists e, Raise e ∈ stream) ->
  is_ok (route_chunks router point_count count stream ws).2 = false.
Proof.
  intros [e He]. revert count ws.
  induction stream as [|[points|e'] rest IH]; intros count ws; simpl.
  - by apply elem_of_nil in He.
  - apply elem_of_cons in He as [?|He]; [done|].
    apply bind_fails_right; intros _ ws1.
    apply bind_fails_right; intros _ ws2. by apply IH.
  - done.
Qed.

(** C7.  Whatever [partition_las] does - it returns, or the routing loop
    raises partway - the four writers it opened end up closed exactly
    once each; and when the body of the [try] raises [e], the call raises
    [e] and returns no payload list.  In particular a failed read of the
    source makes the call fail. *)
Theorem partition_las_closes_writers (file_path : string) (file : LasReader)
    (ws : Writers) (r : result (list Payload)) :
  partition_las file_path file = (ws, r) ->
  length ws = 4%nat /\
  Forall (fun w => w_closed w = 1%nat) ws /\
  (forall sub_bounds e,
     square_split (x_min (header file)) (y_min (header file))
                  (x_max (header file)) (y_max (header file)) 2 = Ok sub_bounds ->
     (routing_body (fun points => route_chunk points 0 (enumerate sub_bounds)) file
        (map (fun _ => open_writer (header file)) sub_bounds)).2 = Raise e ->
     r = Raise e) /\
  ((exists e, Raise e ∈ chunks file) -> is_ok r = false).
Proof.
  intros Hrun.
  destruct (partition_las_with_unfold _ file_path file sound_router_early)
    as (sub_bounds & ws1 & rb & Hsplit & Hbody & Hframe & _ & Hres).
  unfold partition_las in Hrun. rewrite Hres in Hrun. simplify_eq.
  apply frame_replicate in Hframe as [Hlen Hall].
  split; [by rewrite length_fmap|]. split.
  { apply Forall_fmap. eapply Forall_impl; [exact Hall|].
    intros w Hc. simpl. by rewrite Hc. }
  split.
  - intros sub_bounds' e Hsplit' Hraise.
    rewrite Hsplit in Hsplit'. simplify_eq. rewrite Hbody in Hraise.
    simpl in Hraise. by subst rb.
  - intros Hbad.
    assert (is_ok rb = false) as Hrb.
    { replace rb with (routing_body
        (fun points => route_chunk points 0 (enumerate sub_bounds)) file
        (map (fun _ => open_writer (header file)) sub_bounds)).2 by by rewrite Hbody.
      unfold routing_body. apply bind_fails_left.
      by apply route_chunks_failed_read. }
    by destruct rb.
Qed.

Lemma partition_las_closes_writers_witness :
  length (partition_las "cloud.laz" truncated).1 = 4%nat /\
  Forall (fun w => w_closed w = 1%nat) (partition_las "cloud.laz" truncated).1 /\
  (forall sub_bounds e,
     square_split (x_min (header truncated)) (y_min (header truncated))
                  (x_max (header truncated)) (y_max (header truncated)) 2
       = Ok sub_bounds ->
     (routing_body (fun points => route_chunk points 0 (enumerate sub_bounds))
        truncated
        (map (fun _ => open_writer (header truncated)) sub_bounds)).2 = Raise e ->
     (partition_las "cloud.laz" truncated).2 = Raise e) /\
  ((exists e, Raise e ∈ chunks truncated) ->
   is_ok (partition_las "cloud.laz" truncated).2 = false).
Proof.
  apply (partition_las_closes_writers "cloud.laz" truncated).
  vm_compute. reflexivity.
Defined.

(** C10, as laspy writes the payloads.  Every payload [partition_las]
    returns carries the header its writer kept: the copy of the source
    header that was reset when the writer was opened and grown with the
    points written.  It keeps the point format of the source, declares as
    many points as the payload holds and the bounds of those points, and
    a payload that received no point declares the bounds [0]. *)
Theorem partition_las_payload_headers (file_path : string) (file : LasReader)
    (payloads : list Payload) :
  (partition_las file_path file).2 = Ok payloads ->
  length payloads = 4%nat /\
  Forall (fun p =>
    pl_header p.2 = written_header (header file) (pl_points p.2) /\
    point_format (pl_header p.2) = point_format (header file) /\
    point_count (pl_header p.2) = Z.of_nat (length (pl_points p.2)) /\
    (pl_points p.2 = [] ->
     pl_header p.2 =
       {| x_min := 0; y_min := 0; x_max := 0; y_max := 0;
          point_count := 0; point_format := point_format (header file) |}))
    payloads.
Proof.
  intros Hrun.
  destruct (partition_las_with_unfold _ file_path file sound_router_early)
    as (sub_bounds & ws1 & rb & Hsplit & Hbody & Hframe & Htracked & Hres).
  unfold partition_las in Hrun. rewrite Hres in Hrun. simpl in Hrun.
  destruct rb as [[]|e]; [|done]. simplify_eq.
  apply frame_replicate in Hframe as [Hlen Hall].
  split; [by rewrite length_imap, length_fmap|].
  apply Forall_forall. intros p Hp.
  apply elem_of_lookup_imap in Hp as (i & w & -> & Hw).
  apply list_lookup_fmap_Some in Hw as (w0 & -> & Hw0).
  eapply Forall_lookup_1 in Htracked; [|exact Hw0].
  assert (pl_header (getvalue (close w0))
          = written_header (header file) (pl_points (getvalue (close w0)))) as E.
  { simpl. unfold written_header. by rewrite Htracked. }
  cbn [snd]. rewrite E. split; [done|]. split; [apply point_format_written|].
  split; [apply point_count_written|].
  intros ->. apply written_header_nil.
Qed.

Lemma partition_las_payload_headers_witness :
  length inner_only_payloads = 4%nat /\
  Forall (fun p =>
    pl_header p.2 = written_header (header inner_only) (pl_points p.2) /\
    point_format (pl_header p.2) = point_format (header inner_only) /\
    point_count (pl_header p.2) = Z.of_nat (length (pl_points p.2)) /\
    (pl_points p.2 = [] ->
     pl_header p.2 =
       {| x_min := 0; y_min := 0; x_max := 0; y_max := 0;
          point_count := 0; point_format := point_format (header inner_only) |}))
    inner_only_payloads.
Proof.
  apply (partition_las_payload_headers "cloud.laz" inner_only).
  vm_compute. reflexivity.
Defined.

(** C10 as stated fails.  The source declares the bounds [(0,0,100,100)]
    and one point, at [(25,25)].  The payload of partition 0 declares the
    bounds [(25,25,25,25)] of that point, the three payloads that
    received nothing declare the bounds [(0,0,0,0)] and no point: none of
    the four carries the header of the source. *)
Lemma partition_las_payload_header_regrown :
  header inner_only = payload_header 0 0 100 100 1 /\
  (partition_las "cloud.laz" inner_only).2 =
    Ok [ ("cloud.laz", 0,
          {| pl_header := payload_header 25 25 25 25 1; pl_points := [p_inner] |});
         ("cloud.laz", 1,
          {| pl_header := payload_header 0 0 0 0 0; pl_points := [] |});
         ("cloud.laz", 2,
          {| pl_header := payload_header 0 0 0 0 0; pl_points := [] |});
         ("cloud.laz", 3,
          {| pl_header := payload_header 0 0 0 0 0; pl_points := [] |}) ] /\
  Forall (fun p =>
    (x_max (pl_header p.2) <? x_max (header inner_only))%float = true)
    inner_only_payloads.
Proof.
  split; [done|]. split; [by vm_compute|]. repeat constructor.
Qed.

(** ** [partition_las]: the early stop *)

Lemma np_sum_nonneg mask : 0 <= np_sum mask.
Proof. unfold np_sum. lia. Qed.

Lemma tally_nonneg points sub_bounds : 0 <= tally points sub_bounds.
Proof.
  induction sub_bounds as [|ic rest IH]; simpl; [done|].
  pose proof (np_sum_nonneg (chunk_mask points ic.2)). lia.
Qed.

Lemma np_sum_zero mask : np_sum mask = 0 -> np_any mask = false.
Proof.
  unfold np_sum, np_any.
  induction mask as [|[] mask IH]; simpl; [done| lia |done].
Qed.

Lemma route_cell_idle points i c piped ws :
  np_sum (chunk_mask points c) = 0 ->
  route_cell points i c piped ws = (ws, Ok piped).
Proof.
  intros H0. unfold route_cell. rewrite (np_sum_zero _ H0), H0.
  unfold bind, ret. do 2 f_equal. lia.
Qed.

Lemma route_chunk_all_idle points piped sub_bounds ws :
  tally points sub_bounds = 0 ->
  route_chunk_all points piped sub_bounds ws = (ws, Ok tt).
Proof.
  revert piped; induction sub_bounds as [|[i c] rest IH]; intros piped Ht;
    simpl in *.
  - done.
  - pose proof (np_sum_nonneg (chunk_mask points c)).
    pose proof (tally_nonneg points rest).
    rewrite bind_run, route_cell_idle by lia. apply IH. lia.
Qed.

Lemma route_cell_tally points i c piped ws ws' piped' :
  route_cell points i c piped ws = (ws', Ok piped') ->
  piped' = piped + np_sum (chunk_mask points c).
Proof.
  unfold route_cell. rewrite bind_run.
  destruct (np_any _).
  - destruct (writers_write _ _ ws) as [ws1 [[]|e]]; unfold ret;
      intros ?; by simplify_eq.
  - unfold ret. intros ?; by simplify_eq.
Qed.

(** When the cells left to visit cannot push the tally past the chunk
    length, the [break] skips only cells that match nothing. *)
Lemma route_chunk_exact points piped sub_bounds ws :
  piped + tally points sub_bounds <= Z.of_nat (length points) ->
  route_chunk points piped sub_bounds ws
  = route_chunk_all points piped sub_bounds ws.
Proof.
  revert piped ws; induction sub_bounds as [|[i c] rest IH]; intros piped ws Ht;
    simpl in *; [done|].
  rewrite !bind_run.
  destruct (route_cell points i c piped ws) as [ws1 [piped'|e]] eqn:E; [|done].
  apply route_cell_tally in E. subst piped'.
  pose proof (tally_nonneg points rest).
  destruct (Z.eqb_spec (piped + np_sum (chunk_mask points c))
                       (Z.of_nat (length points))).
  - rewrite route_chunk_all_idle by lia. done.
  - apply IH. lia.
Qed.

Lemma route_chunks_agree r1 r2 point_count count stream ws :
  (forall points ws1, Ok points ∈ stream -> r1 points ws1 = r2 points ws1) ->
  route_chunks r1 point_count count stream ws
  = route_chunks r2 point_count count stream ws.
Proof.
  revert count ws; induction stream as [|[points|e] rest IH]; intros count ws Hr;
    simpl; [done| |done].
  rewrite !bind_run. destruct (progress _ _ ws) as [ws1 [q|e]]; [|done].
  rewrite !bind_run, (Hr points ws1) by by left.
  destruct (r2 points ws1) as [ws2 [[]|e]]; [|done].
  apply IH. intros pts ws3 Hin. apply Hr. by right.
Qed.

(** Where the early stop is exact: on a source none of whose chunks has a
    point counted by two cells (the tally over all four cells does not
    exceed the chunk length), [partition_las] and the routing without
    [break] agree on the final writers and on the result. *)
Lemma early_stop_exact_when_counted_once (file_path : string) (file : LasReader) :
  (forall sub_bounds points,
     square_split (x_min (header file)) (y_min (header file))
                  (x_max (header file)) (y_max (header file)) 2 = Ok sub_bounds ->
     Ok points ∈ chunks file ->
     tally points (enumerate sub_bounds) <= Z.of_nat (length points)) ->
  partition_las file_path file = partition_las_no_early_stop file_path file.
Proof.
  intros Hcount.
  unfold partition_las, partition_las_no_early_stop, partition_las_with.
  destruct (square_split _ _ _ _ 2) as [sub_bounds|e]; [|done].
  unfold try_finally, routing_body. rewrite !bind_run.
  rewrite (route_chunks_agree _
             (fun points => route_chunk_all points 0 (enumerate sub_bounds))).
  - done.
  - intros points ws1 Hin. apply route_chunk_exact.
    specialize (Hcount _ _ eq_refl Hin). lia.
Qed.

(** C1, at the failing input.  The source is one chunk holding one point,
    at the corner [(50, 50)] shared by the four cells of the box
    [(0,0,100,100)].  Cell 0 matches it, the tally equals the chunk length
    and the loop breaks: partitions 1, 2 and 3 stay empty.  With every mask
    evaluated the point is in all four payloads. *)
Theorem early_stop_changes_payloads :
  (partition_las "cloud.laz" centre_only).2 =
    Ok [ ("cloud.laz", 0,
          {| pl_header := payload_header 50 50 50 50 1; pl_points := [p_centre] |});
         ("cloud.laz", 1,
          {| pl_header := payload_header 0 0 0 0 0; pl_points := [] |});
         ("cloud.laz", 2,
          {| pl_header := payload_header 0 0 0 0 0; pl_points := [] |});
         ("cloud.laz", 3,
          {| pl_header := payload_header 0 0 0 0 0; pl_points := [] |}) ] /\
  (partition_las_no_early_stop "cloud.laz" centre_only).2 =
    Ok [ ("cloud.laz", 0,
          {| pl_header := payload_header 50 50 50 50 1; pl_points := [p_centre] |});
         ("cloud.laz", 1,
          {| pl_header := payload_header 50 50 50 50 1; pl_points := [p_centre] |});
         ("cloud.laz", 2,
          {| pl_header := payload_header 50 50 50 50 1; pl_points := [p_centre] |});
         ("cloud.laz", 3,
          {| pl_header := payload_header 50 50 50 50 1; pl_points := [p_centre] |}) ].
Proof. split; vm_compute; reflexivity. Qed.

(** C2, at the failing input.  [square_split] of [(0,0,100,100)] by 2
    gives the four cells of the scenario, in that order.  Routing a chunk
    with the points [(50,50)] and [(25,25)]: [(25,25)] goes to the first
    partition only, as claimed; [(50,50)] goes to the first partition only
    as well, because cell 0 matches both points and the loop breaks.  With
    every mask evaluated [(50,50)] is in all four payloads, and so it is
    in [partition_las] when the rest of the chunk keeps the tally from
    meeting the chunk length before the last cell. *)
Theorem boundary_point_routing :
  square_split 0 0 100 100 2 = Ok scenario_cells /\
  routed (partition_las "cloud.laz" centre_and_inner) =
    Ok [ [p_centre; p_inner]; []; []; [] ] /\
  routed (partition_las_no_early_stop "cloud.laz" centre_and_inner) =
    Ok [ [p_centre; p_inner]; [p_centre]; [p_centre]; [p_centre] ] /\
  routed (partition_las "cloud.laz" centre_and_far) =
    Ok [ [p_centre]; [p_centre]; [p_centre]; [p_centre; p_far; p_far; p_far] ].
Proof.
  repeat split; vm_compute; reflexivity.
Qed.

(** ** Temporary files *)

Lemma swallow_remove f (fs : FS) :
  (except_FileNotFoundError_pass (os_remove f) fs).2 = Ok tt.
Proof.
  unfold except_FileNotFoundError_pass, os_remove. by destruct (fs !! f).
Qed.

Lemma swallow_remove_run f (fs : FS) :
  except_FileNotFoundError_pass (os_remove f) fs = (delete f fs, Ok tt).
Proof.
  unfold except_FileNotFoundError_pass, os_remove.
  destruct (fs !! f) eqn:E; [done|]. by rewrite delete_id.
Qed.

Lemma os_remove_missing f (fs : FS) :
  fs !! f = None -> os_remove f fs = (fs, Raise FileNotFoundError).
Proof. intros E. unfold os_remove. by rewrite E. Qed.

Lemma for_each_swallow_remove files (fs : FS) :
  (for_each files (fun f => except_FileNotFoundError_pass (os_remove f)) fs).2
  = Ok tt.
Proof.
  revert fs; induction files as [|f files IH]; intros fs; simpl; [done|].
  rewrite bind_run, swallow_remove_run. apply IH.
Qed.

Lemma create_dem_finally_ok laz dem (fs : FS) :
  (create_dem_finally laz dem fs).2 = Ok tt.
Proof.
  unfold create_dem_finally. rewrite bind_run, swallow_remove_run.
  apply swallow_remove.
Qed.

Lemma create_models_finally_ok laz dsm dem (fs : FS) :
  (create_models_finally laz dsm dem fs).2 = Ok tt.
Proof.
  unfold create_models_finally.
  rewrite bind_run, swallow_remove_run, bind_run, swallow_remove_run.
  apply swallow_remove.
Qed.

Lemma merge_dem_cleanup_ok merged files (fs : FS) :
  (merge_dem_cleanup merged files fs).2 = Ok tt.
Proof.
  unfold merge_dem_cleanup. rewrite bind_run, swallow_remove_run.
  apply for_each_swallow_remove.
Qed.

(** C9, with the failing input.  In [create_dem] and [create_models] the
    [finally] block never raises, whatever files are missing, so the call
    ends as the body of its [try] ended; the removals of
    [merge_dem_partitions] never raise either.  [merge_partitions]
    removes its files with a bare [os.remove]: given two tiles that carry
    the same partition index, the part file they share is removed once
    and the second removal raises [FileNotFoundError] to the caller,
    where [merge_dem_partitions] on the same tiles returns. *)
Theorem missing_file_at_cleanup :
  (forall pdal_execute tmp_prefix file_path partition las_data (fs : FS),
     (forall fs1, (create_dem_finally (tmp_prefix +:+ ".laz")
                     (tmp_prefix +:+ "_dem.gtiff") fs1).2 = Ok tt) /\
     (create_dem pdal_execute tmp_prefix file_path partition las_data fs).2 =
     (create_dem_try pdal_execute (tmp_prefix +:+ ".laz")
        (tmp_prefix +:+ "_dem.gtiff") file_path partition las_data fs).2) /\
  (forall pdal_execute tmp_prefix file_path partition las_data (fs : FS),
     (forall fs1, (create_models_finally (tmp_prefix +:+ ".laz")
                     (tmp_prefix +:+ "_dsm.gtiff")
                     (tmp_prefix +:+ "_dem.gtiff") fs1).2 = Ok tt) /\
     (create_models pdal_execute tmp_prefix file_path partition las_data fs).2 =
     (create_models_try pdal_execute (tmp_prefix +:+ ".laz")
        (tmp_prefix +:+ "_dsm.gtiff") (tmp_prefix +:+ "_dem.gtiff")
        file_path partition las_data fs).2) /\
  (forall file_dem_merged dem_files (fs : FS),
     (merge_dem_cleanup file_dem_merged dem_files fs).2 = Ok tt) /\
  is_ok (merge_dem_partitions first_tile_merge "/tmp/tmpq1" "cloud.laz"
           same_index_dem_tiles ∅).2 = true /\
  (merge_partitions first_tile_merge "/tmp/tmpq1" "cloud.laz"
     same_index_tiles ∅).2 = Raise FileNotFoundError.
Proof.
  split; [|split; [|split; [|split]]].
  - intros. split; [intros; apply create_dem_finally_ok|].
    unfold create_dem. apply try_finally_quiet.
    intros; apply create_dem_finally_ok.
  - intros. split; [intros; apply create_models_finally_ok|].
    unfold create_models. apply try_finally_quiet.
    intros; apply create_models_finally_ok.
  - intros; apply merge_dem_cleanup_ok.
  - vm_compute. reflexivity.
  - vm_compute. reflexivity.
Qed.

(** ** The merge *)

Lemma rasterio_open_basic name (fs fs' : FS) d :
  rasterio_open name fs = (fs', Ok d) ->
  fs' = fs /\ exists profile, meta d = basic_meta profile.
Proof.
  unfold rasterio_open.
  destruct (fs !! name) as [[| profile px |]|]; intros ?; simplify_eq.
  split; [done|]. by exists profile.
Qed.

Lemma comprehension_rasterio_open files (fs fs' : FS) ds :
  comprehension rasterio_open files fs = (fs', Ok ds) ->
  fs' = fs /\ Forall (fun d => exists profile, meta d = basic_meta profile) ds.
Proof.
  revert fs ds; induction files as [|f files IH]; intros fs ds; simpl.
  - unfold ret. intros ?; simplify_eq. by split.
  - intros H. apply bind_Ok_inv in H as (d & fs1 & Hd & H).
    apply bind_Ok_inv in H as (ds' & fs2 & Hds & H).
    unfold ret in H. simplify_eq.
    apply rasterio_open_basic in Hd as [-> Hd].
    apply IH in Hds as [-> Hds]. split; [done|]. by constructor.
Qed.

Lemma basic_meta_lookup_other profile k :
  k ∉ meta_keys -> basic_meta profile !! k = None.
Proof.
  intros Hk. unfold basic_meta. apply map_lookup_filter_None. right.
  intros v _. done.
Qed.

Lemma first_elem_of {A} (xs : list A) a : first xs = Ok a -> a ∈ xs.
Proof. destruct xs; intros ?; simplify_eq/=. by left. Qed.

Section Merge.

Variable merge : list Dataset -> result (Array * Affine).

Lemma merge_dem_partitions_tiled tmp key partitions (fs fs' : FS) file_path dem :
  merge_dem_partitions merge tmp key partitions fs = (fs', Ok (file_path, dem)) ->
  tiled_256 dem.
Proof.
  unfold merge_dem_partitions. intros H.
  apply bind_Ok_inv in H as (dem_files & fs1 & _ & H).
  apply bind_Ok_inv in H as (dems & fs2 & _ & H).
  apply bind_Ok_inv in H as ([mosaic_dem output_dem] & fs3 & _ & H).
  apply bind_Ok_inv in H as (dems_0 & fs4 & _ & H).
  apply bind_Ok_inv in H as ([] & fs5 & Hw & H).
  apply bind_Ok_inv in H as (dem_merged & fs6 & Hr & H).
  apply bind_Ok_inv in H as ([] & fs7 & _ & H).
  unfold ret in H. simplify_eq.
  unfold rio_write, write_file in Hw. simplify_eq.
  unfold read_file in Hr. rewrite lookup_insert_eq in Hr. simplify_eq.
  eexists _, _. split; [done|]. unfold update.
  repeat split; apply lookup_union_Some_l; by simplify_map_eq.
Qed.

Lemma merge_partitions_untiled tmp key partitions (fs fs' : FS)
    file_path dsm dem :
  merge_partitions merge tmp key partitions fs
    = (fs', Ok (file_path, dsm, dem)) ->
  untiled dsm /\ untiled dem.
Proof.
  unfold merge_partitions. intros H.
  apply bind_Ok_inv in H as ([dsm_files dem_files] & fs1 & _ & H).
  apply bind_Ok_inv in H as (dsms & fs2 & Hdsms & H).
  apply bind_Ok_inv in H as (dems & fs3 & Hdems & H).
  apply bind_Ok_inv in H as ([mosaic_dsm output_dsm] & fs4 & _ & H).
  apply bind_Ok_inv in H as ([mosaic_dem output_dem] & fs5 & _ & H).
  apply bind_Ok_inv in H as (dsms_0 & fs6 & Hd0 & H).
  apply bind_Ok_inv in H as ([] & fs7 & Hw1 & H).
  apply bind_Ok_inv in H as (dems_0 & fs8 & Hd1 & H).
  apply bind_Ok_inv in H as ([] & fs9 & Hw2 & H).
  apply bind_Ok_inv in H as (dsm_merged & fs10 & Hr1 & H).
  apply bind_Ok_inv in H as ([] & fs11 & Hrm1 & H).
  apply bind_Ok_inv in H as (dem_merged & fs12 & Hr2 & H).
  apply bind_Ok_inv in H as ([] & fs13 & _ & H).
  apply bind_Ok_inv in H as ([] & fs14 & _ & H).
  apply bind_Ok_inv in H as ([] & fs15 & _ & H).
  unfold ret in H. simplify_eq.
  apply comprehension_rasterio_open in Hdsms as [-> Hdsms].
  apply comprehension_rasterio_open in Hdems as [-> Hdems].
  apply lift_Ok_inv in Hd0 as [-> Hd0]. apply first_elem_of in Hd0.
  apply lift_Ok_inv in Hd1 as [-> Hd1]. apply first_elem_of in Hd1.
  eapply Forall_forall in Hdsms as [pdsm Edsm]; [|exact Hd0].
  eapply Forall_forall in Hdems as [pdem Edem]; [|exact Hd1].
  unfold rio_write, write_file in Hw1, Hw2. simplify_eq.
  assert (tmp +:+ "_dsm-merged.gtiff" <> tmp +:+ "_dem-merged.gtiff") as Hne.
  { intros E. by apply (inj (String.app tmp)) in E. }
  unfold read_file in Hr1.
  rewrite lookup_insert_ne, lookup_insert_eq in Hr1 by done. simplify_eq.
  unfold os_remove in Hrm1.
  rewrite lookup_insert_ne, lookup_insert_eq in Hrm1 by done. simplify_eq.
  unfold read_file in Hr2.
  rewrite lookup_delete_ne, lookup_insert_eq in Hr2 by done. simplify_eq.
  split; eexists _, _; (split; [done|]); unfold update;
    rewrite ?Edsm, ?Edem;
    repeat split; apply lookup_union_None; (split; [by simplify_map_eq|]);
    apply basic_meta_lookup_other; unfold meta_keys;
    rewrite !not_elem_of_cons; repeat split; try done; apply not_elem_of_nil.
Qed.

(** C8, with what the code does.  The terrain mosaic of
    [merge_dem_partitions] is created tiled in 256 x 256 blocks.  The two
    mosaics of [merge_partitions] carry no tiling hint: the surface mosaic
    as claimed, the terrain mosaic against the claim. *)
Theorem tiling_hints_of_merged_mosaics (tmp key : string) :
  (forall partitions (fs fs' : FS) file_path dem,
     merge_dem_partitions merge tmp key partitions fs
       = (fs', Ok (file_path, dem)) ->
     tiled_256 dem) /\
  (forall partitions (fs fs' : FS) file_path dsm dem,
     merge_partitions merge tmp key partitions fs
       = (fs', Ok (file_path, dsm, dem)) ->
     untiled dsm /\ untiled dem).
Proof.
  split.
  - intros *. apply merge_dem_partitions_tiled.
  - intros *. apply merge_partitions_untiled.
Qed.

(** C6, as the code has it.  With no tile, [merge_dem_partitions] and
    [merge_partitions] write nothing and fail: with the exception
    [rasterio.merge.merge] raises on an empty list, or else with the
    [IndexError] of [dems[0]] (of [dsms[0]]).  No [EmptyPartitionSet] is
    raised by the workflow itself. *)
Theorem merge_of_no_tile_fails (tmp key : string) (fs : FS) :
  let failure := match merge [] with Raise e => e | Ok _ => IndexError end in
  merge_dem_partitions merge tmp key [] fs = (fs, Raise failure) /\
  merge_partitions merge tmp key [] fs = (fs, Raise failure).
Proof.
  unfold merge_dem_partitions, merge_partitions.
  cbv beta iota zeta delta [bind ret lift for_acc comprehension].
  destruct (merge []) as [[mosaic output]|e]; done.
Qed.

End Merge.

Lemma tiling_hints_of_merged_mosaics_witness :
  tiled_256 merged_dem_only /\
  untiled merged_models.1 /\ untiled merged_models.2.
Proof.
  destruct (tiling_hints_of_merged_mosaics first_tile_merge
              "/tmp/tmpq1" "cloud.laz") as [Hdem Hmodels].
  split.
  - eapply (Hdem [("cloud.laz", 0, tile)] ∅). vm_compute. reflexivity.
  - eapply (Hmodels [("cloud.laz", 0, tile, tile)] ∅). vm_compute. reflexivity.
Defined.

(** C6 as stated fails: with a merge that indexes its first source, the
    empty tile sequence ends in [IndexError]. *)
Lemma merge_of_no_tile_index_error :
  merge_dem_partitions first_tile_merge "/tmp/tmpq1" "cloud.laz" [] ∅
    = (∅, Raise IndexError) /\
  merge_partitions first_tile_merge "/tmp/tmpq1" "cloud.laz" [] ∅
    = (∅, Raise IndexError).
Proof. split; reflexivity. Qed.

(** * Further properties *)

(** ** [partition_las]: what the payloads hold *)

Lemma select_chunk_mask points c :
  select points (chunk_mask points c) = cell_points c points.
Proof.
  unfold chunk_mask, cell_points.
  induction points as [|p points IH]; simpl; [done|].
  destruct (in_cell _ _ c); by rewrite IH.
Qed.

Lemma np_any_false_cell_points points c :
  np_any (chunk_mask points c) = false -> cell_points c points = [].
Proof.
  unfold np_any, chunk_mask, cell_points.
  induction points as [|p points IH]; simpl; [done|].
  destruct (in_cell _ _ c); simpl; [done|]. apply IH.
Qed.

Lemma cell_points_app c l1 l2 :
  cell_points c (l1 ++ l2) = cell_points c l1 ++ cell_points c l2.
Proof. apply List.filter_app. Qed.

Lemma keeps_frame_length {A} (m : M Writers A) ws :
  keeps_frame m -> length (m ws).1 = length ws.
Proof.
  intros Hm. specialize (Hm ws). unfold frame in Hm.
  apply (f_equal length) in Hm. by rewrite !length_fmap in Hm.
Qed.

Lemma route_cell_length points i c piped ws :
  length (route_cell points i c piped ws).1 = length ws.
Proof. apply keeps_frame_length, keeps_frame_route_cell. Qed.

Lemma points_of_lookup_lt ws k :
  (k < length ws)%nat -> is_Some (points_of ws !! k).
Proof.
  intros Hk. apply lookup_lt_is_Some. unfold points_of. by rewrite length_fmap.
Qed.

(** The effect of lines 56-63 on the points the writers hold. *)
Lemma route_cell_effect points i c piped ws ws1 r :
  route_cell points i c piped ws = (ws1, r) ->
  (forall k, k <> i -> points_of ws1 !! k = points_of ws !! k) /\
  (forall pts, points_of ws !! i = Some pts ->
     points_of ws1 !! i = Some (pts ++ cell_points c points) /\
     r = Ok (piped + np_sum (chunk_mask points c))).
Proof.
  unfold route_cell. rewrite bind_run.
  destruct (np_any (chunk_mask points c)) eqn:Eany.
  - unfold writers_write. destruct (ws !! i) as [w|] eqn:Ew.
    + unfold ret. intros ?; simplify_eq. unfold points_of. split.
      * intros k Hk. rewrite list_fmap_insert. by rewrite list_lookup_insert_ne.
      * intros pts Hpts. rewrite list_lookup_fmap, Ew in Hpts. simplify_eq/=.
        split; [|done]. rewrite list_fmap_insert, list_lookup_insert_eq.
        -- by rewrite select_chunk_mask.
        -- rewrite length_fmap. by eapply lookup_lt_Some.
    + intros ?; simplify_eq. split; [done|].
      intros pts Hpts. unfold points_of in Hpts.
      by rewrite list_lookup_fmap, Ew in Hpts.
  - unfold ret. intros ?; simplify_eq. split; [done|].
    intros pts Hpts. rewrite (np_any_false_cell_points _ _ Eany), app_nil_r. done.
Qed.

(** One chunk through the loop with its [break]: a writer the loop does
    not index keeps its points, and every other writer gains nothing or
    the points of the chunk that lie in its cell. *)
Lemma route_chunk_effect points sub_bounds piped ws ws' r :
  NoDup sub_bounds.*1 ->
  route_chunk points piped sub_bounds ws = (ws', r) ->
  forall k,
    (k ∉ sub_bounds.*1 -> points_of ws' !! k = points_of ws !! k) /\
    (forall pts, points_of ws !! k = Some pts ->
       exists extra, points_of ws' !! k = Some (pts ++ extra) /\
         (extra = [] \/
          exists c, (k, c) ∈ sub_bounds /\ extra = cell_points c points)).
Proof.
  revert piped ws.
  induction sub_bounds as [|[i c] rest IH]; intros piped ws Hnd Hrun k; simpl in *.
  - unfold ret in Hrun. simplify_eq. split; [done|].
    intros pts Hpts. exists []. rewrite app_nil_r. auto.
  - apply NoDup_cons in Hnd as [Hi Hnd]. rewrite bind_run in Hrun.
    destruct (route_cell points i c piped ws) as [ws1 r1] eqn:Ecell.
    destruct (route_cell_effect _ _ _ _ _ _ _ Ecell) as [Hother Hself].
    assert (forall pts, points_of ws !! k = Some pts ->
              exists extra, points_of ws1 !! k = Some (pts ++ extra) /\
                (extra = [] \/ exists c0, (k, c0) ∈ (i, c) :: rest /\
                                  extra = cell_points c0 points)) as Hone.
    { intros pts Hpts. destruct (decide (k = i)) as [->|Hne].
      - destruct (Hself pts Hpts) as [Hk _]. eexists. split; [exact Hk|].
        right. exists c. split; [by left|done].
      - exists []. rewrite app_nil_r, Hother by done. auto. }
    assert (k ∉ i :: rest.*1 -> points_of ws1 !! k = points_of ws !! k) as Hskip.
    { intros Hk. apply not_elem_of_cons in Hk as [Hne _]. by apply Hother. }
    destruct r1 as [piped'|e]; [|by simplify_eq].
    destruct (piped' =? Z.of_nat (length points)).
    { unfold ret in Hrun. by simplify_eq. }
    destruct (IH _ _ Hnd Hrun k) as [IHother IHself]. split.
    + intros Hk. rewrite <- Hskip by done. apply IHother.
      by apply not_elem_of_cons in Hk as [_ Hk].
    + intros pts Hpts. destruct (decide (k = i)) as [->|Hne].
      * destruct (Hself pts Hpts) as [Hk _].
        exists (cell_points c points). split.
        -- by rewrite IHother.
        -- right. exists c. split; [by left|done].
      * rewrite <- Hother in Hpts by done.
        destruct (IHself pts Hpts) as (extra & Hk & Hextra).
        exists extra. split; [done|].
        destruct Hextra as [->|(c0 & Hin & ->)]; [by left|].
        right. exists c0. split; [by right|done].
Qed.

(** No [IndexError] when every index of the loop has a writer. *)
Lemma route_chunk_ok points sub_bounds piped ws :
  (forall i, i ∈ sub_bounds.*1 -> (i < length ws)%nat) ->
  (route_chunk points piped sub_bounds ws).2 = Ok tt.
Proof.
  revert piped ws. induction sub_bounds as [|[i c] rest IH]; intros piped ws Hlt;
    simpl in *; [done|].
  rewrite bind_run.
  destruct (route_cell points i c piped ws) as [ws1 r1] eqn:Ecell.
  destruct (route_cell_effect _ _ _ _ _ _ _ Ecell) as [_ Hself].
  destruct (points_of_lookup_lt ws i) as [pts Hpts]; [apply Hlt; by left|].
  destruct (Hself pts Hpts) as [_ ->].
  destruct (_ =? _); [done|]. apply IH. intros j Hj.
  replace ws1 with (route_cell points i c piped ws).1 by by rewrite Ecell.
  rewrite route_cell_length. apply Hlt. by right.
Qed.

(** One chunk with every mask evaluated: each indexed writer gains
    exactly the points of the chunk that lie in its cell. *)
Lemma route_chunk_all_effect points sub_bounds piped ws ws' :
  NoDup sub_bounds.*1 ->
  route_chunk_all points piped sub_bounds ws = (ws', Ok tt) ->
  forall k,
    (k ∉ sub_bounds.*1 -> points_of ws' !! k = points_of ws !! k) /\
    (forall c pts, (k, c) ∈ sub_bounds -> points_of ws !! k = Some pts ->
       points_of ws' !! k = Some (pts ++ cell_points c points)).
Proof.
  revert piped ws.
  induction sub_bounds as [|[i c] rest IH]; intros piped ws Hnd Hrun k; simpl in *.
  - unfold ret in Hrun. simplify_eq. split; [done|]. intros c pts Hin.
    by apply elem_of_nil in Hin.
  - apply NoDup_cons in Hnd as [Hi Hnd]. rewrite bind_run in Hrun.
    destruct (route_cell points i c piped ws) as [ws1 [piped'|e]] eqn:Ecell; [|done].
    destruct (route_cell_effect _ _ _ _ _ _ _ Ecell) as [Hother Hself].
    destruct (IH _ _ Hnd Hrun k) as [IHother IHself]. split.
    + intros Hk. apply not_elem_of_cons in Hk as [Hne Hk].
      rewrite IHother by done. by apply Hother.
    + intros c0 pts Hin Hpts. apply elem_of_cons in Hin as [Heq|Hin].
      * simplify_eq. destruct (Hself pts Hpts) as [Hk _]. by rewrite IHother.
      * assert (k <> i) as Hne.
        { intros ->. apply Hi. apply list_elem_of_fmap. by exists (i, c0). }
        apply (IHself c0); [done|]. by rewrite Hother.
Qed.

Lemma lookup_enumerate {A} (xs : list A) k :
  enumerate xs !! k = (fun a => (k, a)) <$> xs !! k.
Proof. unfold enumerate. by rewrite list_lookup_imap. Qed.

Lemma elem_of_enumerate {A} (xs : list A) k a :
  (k, a) ∈ enumerate xs <-> xs !! k = Some a.
Proof.
  rewrite list_elem_of_lookup. split.
  - intros [j Hj]. rewrite lookup_enumerate in Hj.
    destruct (xs !! j) eqn:E; by simplify_eq/=.
  - intros Hk. exists k. by rewrite lookup_enumerate, Hk.
Qed.

Lemma enumerate_indices {A} (xs : list A) :
  (enumerate xs).*1 = seq 0 (length xs).
Proof.
  apply list_eq. intros k. rewrite list_lookup_fmap, lookup_enumerate.
  destruct (xs !! k) as [a|] eqn:E; simpl.
  - symmetry. apply lookup_seq. split; [done|]. by eapply lookup_lt_Some.
  - symmetry. apply lookup_ge_None. rewrite length_seq.
    by apply lookup_ge_None in E.
Qed.

Lemma enumerate_values {A} (xs : list A) : (enumerate xs).*2 = xs.
Proof.
  apply list_eq. intros k. rewrite list_lookup_fmap, lookup_enumerate.
  by destruct (xs !! k).
Qed.

Lemma NoDup_enumerate {A} (xs : list A) : NoDup (enumerate xs).*1.
Proof. rewrite enumerate_indices. apply NoDup_seq. Qed.

Lemma enumerate_index_lt {A} (xs : list A) i :
  i ∈ (enumerate xs).*1 -> (i < length xs)%nat.
Proof. rewrite enumerate_indices, elem_of_seq. lia. Qed.

Lemma progress_run {S} count point_count (s : S) :
  point_count <> 0 ->
  exists q, progress count point_count s = (s, Ok q).
Proof.
  intros Hpc. unfold progress. rewrite bind_run. unfold lift, ret, int_truediv.
  destruct (Z.eqb_spec point_count 0); [done|]. eauto.
Qed.

Lemma progress_zero {S} count (s : S) :
  progress count 0 s = (s, Raise ZeroDivisionError).
Proof. done. Qed.

Lemma progress_state {S} count point_count (s : S) :
  (progress count point_count s).1 = s.
Proof.
  unfold progress. rewrite bind_run. unfold lift, ret.
  by destruct (int_truediv _ _).
Qed.

(** The whole stream through the loop of lines 46-66, as written: writer
    [k] gains a sublist of the points of the stream that lie in cell [k]. *)
Lemma route_chunks_effect cells point_count count stream ws ws' r :
  route_chunks (fun points => route_chunk points 0 (enumerate cells))
    point_count count stream ws = (ws', r) ->
  forall k c pts, cells !! k = Some c -> points_of ws !! k = Some pts ->
    exists extra, points_of ws' !! k = Some (pts ++ extra) /\
      extra `sublist_of` cell_points c (source_points stream).
Proof.
  revert count ws. induction stream as [|[points|e] rest IH];
    intros count ws Hrun k c pts Hc Hpts; simpl in Hrun.
  - unfold ret in Hrun. simplify_eq. exists []. rewrite app_nil_r.
    split; [done|]. apply sublist_nil_l.
  - unfold source_points. csimpl. fold (source_points rest).
    rewrite cell_points_app.
    rewrite bind_run in Hrun.
    pose proof (progress_state (S := Writers) count point_count ws) as Hst.
    destruct (progress count point_count ws) as [ws0 [q|e]]; simpl in Hst; subst ws0.
    2:{ simplify_eq. exists []. rewrite app_nil_r. split; [done|].
        apply sublist_nil_l. }
    rewrite bind_run in Hrun.
    destruct (route_chunk points 0 (enumerate cells) ws) as [ws1 r1] eqn:Echunk.
    destruct (route_chunk_effect _ _ _ _ _ _ (NoDup_enumerate cells) Echunk k)
      as [_ Hself].
    destruct (Hself pts Hpts) as (extra1 & Hk1 & Hextra1).
    assert (extra1 `sublist_of` cell_points c points) as Hsub1.
    { destruct Hextra1 as [->|(c0 & Hin & ->)]; [apply sublist_nil_l|].
      apply elem_of_enumerate in Hin. by simplify_eq. }
    destruct r1 as [[]|e].
    + destruct (IH _ _ Hrun k c _ Hc Hk1) as (extra2 & Hk2 & Hsub2).
      exists (extra1 ++ extra2). rewrite app_assoc. split; [done|].
      by apply sublist_app.
    + simplify_eq. exists extra1. split; [done|]. by apply sublist_inserts_r.
  - unfold raise in Hrun. simplify_eq. exists []. rewrite app_nil_r.
    split; [done|]. apply sublist_nil_l.
Qed.

Lemma routing_body_Ok_inv router file ws ws1 :
  routing_body router file ws = (ws1, Ok tt) ->
  point_count (header file) <> 0 /\
  exists count,
    route_chunks router (point_count (header file)) 0 (chunks file) ws
      = (ws1, Ok count).
Proof.
  unfold routing_body. intros H.
  apply bind_Ok_inv in H as (count & wsA & Hloop & H).
  apply bind_Ok_inv in H as (q & wsB & Hprog & H).
  unfold ret in H. simplify_eq. split.
  - intros Hz. rewrite Hz in Hprog. by rewrite progress_zero in Hprog.
  - exists count.
    pose proof (progress_state (S := Writers) count
                  (point_count (header file)) wsA) as Hst.
    rewrite Hprog in Hst. simpl in Hst. by subst.
Qed.

(** A successful run, read off the unfolding: the cells, the writers the
    [try] body left, and the payloads as their contents. *)
Lemma partition_las_with_Ok_inv router file_path file payloads :
  sound_router router ->
  (partition_las_with router file_path file).2 = Ok payloads ->
  exists cells ws1,
    square_split (x_min (header file)) (y_min (header file))
                 (x_max (header file)) (y_max (header file)) 2 = Ok cells /\
    length cells = 4%nat /\
    routing_body (router cells) file
      (map (fun _ => open_writer (header file)) cells) = (ws1, Ok tt) /\
    length ws1 = 4%nat /\
    tracked (header file) ws1 /\
    forall k, payloads !! k =
      (fun w => (file_path, Z.of_nat k, getvalue (close w))) <$> ws1 !! k.
Proof.
  intros Hr Hrun.
  destruct (partition_las_with_unfold router file_path file Hr)
    as (cells & ws1 & rb & Hsplit & Hbody & Hframe & Htracked & Hres).
  rewrite Hres in Hrun. simpl in Hrun. destruct rb as [[]|e]; [|done]. simplify_eq.
  apply frame_replicate in Hframe as [Hlen Hall].
  exists cells, ws1. split; [done|]. split.
  { destruct (square_split_two (x_min (header file)) (y_min (header file))
                (x_max (header file)) (y_max (header file)))
      as (c0 & c1 & c2 & c3 & E). rewrite E in Hsplit. by simplify_eq. }
  split; [done|]. split; [done|]. split; [done|].
  intros k. rewrite list_lookup_imap, list_lookup_fmap.
  by destruct (ws1 !! k).
Qed.

Lemma points_of_open_writers (h : LasHeader) (cells : list Cell) k c :
  cells !! k = Some c ->
  points_of (map (fun _ => open_writer h) cells) !! k = Some [].
Proof.
  intros Hc. unfold points_of.
  change (map (fun _ => open_writer h) cells)
    with ((fun _ : Cell => open_writer h) <$> cells).
  by rewrite !list_lookup_fmap, Hc.
Qed.

(** X3.  When [partition_las] returns, payload [k] is labelled
    [(file_path, k)] and its points are a sublist of the points of the
    source that lie in cell [k]: only points its mask selects, in source
    order, none more often than the source has it. *)
Theorem partition_las_payload_sublist (file_path : string) (file : LasReader)
    (payloads : list Payload) :
  (partition_las file_path file).2 = Ok payloads ->
  exists cells,
    square_split (x_min (header file)) (y_min (header file))
                 (x_max (header file)) (y_max (header file)) 2 = Ok cells /\
    forall k c, cells !! k = Some c ->
      exists payload,
        payloads !! k = Some (file_path, Z.of_nat k, payload) /\
        pl_points payload `sublist_of` cell_points c (source_points (chunks file)).
Proof.
  intros Hrun.
  apply (partition_las_with_Ok_inv _ _ _ _ sound_router_early) in Hrun
    as (cells & ws1 & Hsplit & Hlen & Hbody & Hlen1 & _ & Hpay).
  exists cells. split; [done|]. intros k c Hc.
  apply routing_body_Ok_inv in Hbody as [_ [count Hloop]].
  destruct (route_chunks_effect _ _ _ _ _ _ _ Hloop k c []
              Hc (points_of_open_writers _ _ _ _ Hc)) as (extra & Hk & Hsub).
  unfold points_of in Hk. rewrite list_lookup_fmap in Hk.
  destruct (ws1 !! k) as [w|] eqn:Ew; [|done]. injection Hk as Hk.
  exists (getvalue (close w)). split; [by rewrite Hpay, Ew|].
  simpl. by rewrite Hk.
Qed.

Lemma partition_las_payload_sublist_witness :
  exists cells,
    square_split (x_min (header centre_and_inner)) (y_min (header centre_and_inner))
                 (x_max (header centre_and_inner)) (y_max (header centre_and_inner)) 2
      = Ok cells /\
    forall k c, cells !! k = Some c ->
      exists payload,
        centre_and_inner_payloads !! k = Some ("cloud.laz", Z.of_nat k, payload) /\
        pl_points payload
          `sublist_of` cell_points c (source_points (chunks centre_and_inner)).
Proof.
  apply (partition_las_payload_sublist "cloud.laz" centre_and_inner).
  vm_compute. reflexivity.
Defined.

Lemma keeps_frame_route_chunk_all points piped sub_bounds :
  keeps_frame (route_chunk_all points piped sub_bounds).
Proof.
  revert piped; induction sub_bounds as [|[i c] rest IH]; intros piped; simpl.
  - apply keeps_frame_ret.
  - apply keeps_frame_bind; [apply keeps_frame_route_cell|]. intros; apply IH.
Qed.

Lemma sound_router_all :
  sound_router (fun sub_bounds points =>
    route_chunk_all points 0 (enumerate sub_bounds)).
Proof.
  intros sub_bounds points.
  split; [apply keeps_frame_route_chunk_all | apply keeps_tracked_route_chunk_all].
Qed.

(** The whole stream with every mask evaluated: when the loop finishes,
    writer [k] has gained exactly the points of the stream in cell [k]. *)
Lemma route_chunks_all_effect cells point_count count stream ws ws' count' :
  route_chunks (fun points => route_chunk_all points 0 (enumerate cells))
    point_count count stream ws = (ws', Ok count') ->
  forall k c pts, cells !! k = Some c -> points_of ws !! k = Some pts ->
    points_of ws' !! k = Some (pts ++ cell_points c (source_points stream)).
Proof.
  revert count ws. induction stream as [|[points|e] rest IH];
    intros count ws Hrun k c pts Hc Hpts; simpl in Hrun.
  - unfold ret in Hrun. simplify_eq. by rewrite app_nil_r.
  - unfold source_points. csimpl. fold (source_points rest).
    rewrite cell_points_app, app_assoc.
    apply bind_Ok_inv in Hrun as (q & ws0 & Hprog & Hrun).
    pose proof (progress_state (S := Writers) count point_count ws) as Hst.
    rewrite Hprog in Hst. simpl in Hst. subst ws0.
    apply bind_Ok_inv in Hrun as ([] & ws1 & Hchunk & Hrun).
    destruct (route_chunk_all_effect _ _ _ _ _ (NoDup_enumerate cells) Hchunk k)
      as [_ Hself].
    apply (IH _ _ Hrun k c); [done|].
    apply Hself; [|done]. by apply elem_of_enumerate.
  - done.
Qed.

Lemma np_sum_cons p points c :
  np_sum (chunk_mask (p :: points) c) =
  (if in_cell (x p) (y p) c then 1 else 0) + np_sum (chunk_mask points c).
Proof.
  unfold np_sum, chunk_mask. simpl. destruct (in_cell _ _ c); simpl; lia.
Qed.

Lemma tally_nil sub_bounds : tally [] sub_bounds = 0.
Proof. induction sub_bounds as [|ic rest IH]; simpl; [done|]. by rewrite IH. Qed.

Lemma tally_step points i c rest :
  tally points ((i, c) :: rest)
  = np_sum (chunk_mask points c) + tally points rest.
Proof. done. Qed.

Lemma matching_cells_cons p c cells :
  matching_cells p (c :: cells) =
  if in_cell (x p) (y p) c then c :: matching_cells p cells
  else matching_cells p cells.
Proof. done. Qed.

Lemma tally_cons p points (sub_bounds : list (nat * Cell)) :
  tally (p :: points) sub_bounds =
  Z.of_nat (length (matching_cells p sub_bounds.*2)) + tally points sub_bounds.
Proof.
  induction sub_bounds as [|[i c] rest IH]; [done|].
  rewrite !tally_step, np_sum_cons, IH, fmap_cons, matching_cells_cons.
  cbn [snd]. destruct (in_cell _ _ c); simpl length; lia.
Qed.

(** No point in two cells: the tally cannot pass the chunk length. *)
Lemma tally_counted_once points cells :
  (forall p, p ∈ points -> (length (matching_cells p cells) <= 1)%nat) ->
  tally points (enumerate cells) <= Z.of_nat (length points).
Proof.
  induction points as [|p points IH]; intros Hone.
  - by rewrite tally_nil.
  - rewrite tally_cons, enumerate_values. simpl length.
    pose proof (Hone p ltac:(by left)).
    assert (tally points (enumerate cells) <= Z.of_nat (length points)).
    { apply IH. intros q Hq. apply Hone. by right. }
    lia.
Qed.

Lemma elem_of_source_points stream points p :
  Ok points ∈ stream -> p ∈ points -> p ∈ source_points stream.
Proof.
  intros Hin Hp. unfold source_points. apply list_elem_of_bind.
  by exists (Ok points).
Qed.

(** X4.  When no point of the source is selected by two cells - none lies
    on an edge shared by two cells - a run of [partition_las] that returns
    puts into payload [k] exactly the points of the source that lie in
    cell [k], in source order, under the header its writer grew from
    those points. *)
Theorem partition_las_exact (file_path : string) (file : LasReader)
    (cells : list Cell) (payloads : list Payload) (k : nat) (c : Cell) :
  square_split (x_min (header file)) (y_min (header file))
               (x_max (header file)) (y_max (header file)) 2 = Ok cells ->
  Forall (fun p => (length (matching_cells p cells) <= 1)%nat)
         (source_points (chunks file)) ->
  (partition_las file_path file).2 = Ok payloads ->
  cells !! k = Some c ->
  payloads !! k =
    Some (file_path, Z.of_nat k,
          {| pl_header :=
               written_header (header file)
                 (cell_points c (source_points (chunks file)));
             pl_points := cell_points c (source_points (chunks file)) |}).
Proof.
  intros Hsplit Hone Hrun Hc.
  rewrite (early_stop_exact_when_counted_once file_path file) in Hrun.
  2:{ intros sub_bounds points Hsplit' Hin. rewrite Hsplit in Hsplit'. simplify_eq.
      apply tally_counted_once. intros p Hp.
      eapply Forall_forall in Hone; [exact Hone|].
      by eapply elem_of_source_points. }
  apply (partition_las_with_Ok_inv _ _ _ _ sound_router_all) in Hrun
    as (cells' & ws1 & Hsplit' & Hlen & Hbody & Hlen1 & Htracked & Hpay).
  rewrite Hsplit in Hsplit'. simplify_eq.
  apply routing_body_Ok_inv in Hbody as [_ [count Hloop]].
  pose proof (route_chunks_all_effect _ _ _ _ _ _ _ Hloop k c []
                Hc (points_of_open_writers _ _ _ _ Hc)) as Hk.
  unfold points_of in Hk. rewrite list_lookup_fmap in Hk.
  destruct (ws1 !! k) as [w|] eqn:Ew; [|done]. injection Hk as Hk.
  rewrite Hpay, Ew. simpl. do 3 f_equal.
  eapply Forall_lookup_1 in Htracked; [|exact Ew].
  unfold getvalue, close, written_header. simpl. by rewrite Htracked, Hk.
Qed.

Lemma partition_las_exact_witness :
  two_chunks_payloads !! 3%nat =
    Some ("cloud.laz", Z.of_nat 3,
          {| pl_header :=
               written_header (header two_chunks)
                 (cell_points (50, 50, 100, 100)%float
                    (source_points (chunks two_chunks)));
             pl_points :=
               cell_points (50, 50, 100, 100)%float
                 (source_points (chunks two_chunks)) |}).
Proof.
  apply (partition_las_exact "cloud.laz" two_chunks scenario_cells
           two_chunks_payloads).
  - by vm_compute.
  - vm_compute. repeat constructor.
  - vm_compute. reflexivity.
  - reflexivity.
Defined.

Lemma route_chunk_run_ok points cells ws :
  length ws = length cells ->
  exists ws1, route_chunk points 0 (enumerate cells) ws = (ws1, Ok tt) /\
              length ws1 = length ws.
Proof.
  intros Hlen.
  pose proof (route_chunk_ok points (enumerate cells) 0 ws) as Hok.
  pose proof (keeps_frame_length _ ws (keeps_frame_router_early cells points)) as Hl.
  destruct (route_chunk points 0 (enumerate cells) ws) as [ws1 r]. simpl in *.
  exists ws1. split; [|done]. rewrite Hok; [done|].
  intros i Hi. rewrite Hlen. by apply enumerate_index_lt.
Qed.

(** With a non-zero point count the loop consumes every chunk that was
    read and stops only at a failed read. *)
Lemma route_chunks_reads cells point_count count oks tail ws :
  point_count <> 0 ->
  length ws = length cells ->
  exists ws1 count1,
    length ws1 = length ws /\
    route_chunks (fun points => route_chunk points 0 (enumerate cells))
      point_count count ((Ok <$> oks) ++ tail) ws
    = route_chunks (fun points => route_chunk points 0 (enumerate cells))
        point_count count1 tail ws1.
Proof.
  intros Hpc. revert count ws.
  induction oks as [|points oks IH]; intros count ws Hlen.
  - by exists ws, count.
  - csimpl. rewrite bind_run.
    destruct (progress_run (S := Writers) count point_count ws Hpc) as [q ->].
    rewrite bind_run.
    destruct (route_chunk_run_ok points cells ws Hlen) as (ws1 & -> & Hlen1).
    destruct (IH (count + Z.of_nat (length points)) ws1)
      as (ws2 & count2 & Hlen2 & ->); [congruence|].
    exists ws2, count2. split; [congruence|done].
Qed.

Lemma all_ok_reads {A} (stream : list (result A)) :
  (forall r, r ∈ stream -> is_ok r = true) -> exists oks, stream = Ok <$> oks.
Proof.
  induction stream as [|[a|e] rest IH]; intros Hall.
  - by exists [].
  - destruct IH as [oks ->]; [intros r Hr; apply Hall; by right|].
    by exists (a :: oks).
  - specialize (Hall (Raise e) ltac:(by left)). done.
Qed.

Lemma routing_body_all_read cells file oks :
  point_count (header file) <> 0 ->
  chunks file = Ok <$> oks ->
  (routing_body (fun points => route_chunk points 0 (enumerate cells)) file
     (map (fun _ => open_writer (header file)) cells)).2 = Ok tt.
Proof.
  intros Hpc Hchunks. unfold routing_body. rewrite bind_run, Hchunks.
  rewrite <- (app_nil_r (Ok <$> oks)).
  destruct (route_chunks_reads cells (point_count (header file)) 0 oks []
              (map (fun _ => open_writer (header file)) cells) Hpc)
    as (ws1 & count1 & _ & ->); [by rewrite length_map|].
  simpl. unfold ret at 1. rewrite bind_run.
  by destruct (progress_run (S := Writers) count1 _ ws1 Hpc) as [q ->].
Qed.

Lemma routing_body_failed_read cells file oks e rest :
  point_count (header file) <> 0 ->
  chunks file = (Ok <$> oks) ++ Raise e :: rest ->
  (routing_body (fun points => route_chunk points 0 (enumerate cells)) file
     (map (fun _ => open_writer (header file)) cells)).2 = Raise e.
Proof.
  intros Hpc Hchunks. unfold routing_body. rewrite bind_run, Hchunks.
  destruct (route_chunks_reads cells (point_count (header file)) 0 oks
              (Raise e :: rest)
              (map (fun _ => open_writer (header file)) cells) Hpc)
    as (ws1 & count1 & _ & ->); [by rewrite length_map|].
  done.
Qed.

(** X5.  On a source whose header declares a non-zero point count,
    [partition_las] returns exactly when every read of the chunk iterator
    succeeded; otherwise it raises the exception of the first failed
    read. *)
Theorem partition_las_outcome (file_path : string) (file : LasReader) :
  point_count (header file) <> 0 ->
  (is_ok (partition_las file_path file).2 = true <->
   forall r, r ∈ chunks file -> is_ok r = true) /\
  (forall oks e rest,
     chunks file = (Ok <$> oks) ++ Raise e :: rest ->
     (partition_las file_path file).2 = Raise e).
Proof.
  intros Hpc.
  destruct (partition_las_with_unfold _ file_path file sound_router_early)
    as (cells & ws1 & rb & Hsplit & Hbody & _ & _ & Hres).
  unfold partition_las. rewrite Hres. simpl.
  assert (rb = (routing_body (fun points => route_chunk points 0 (enumerate cells))
                  file (map (fun _ => open_writer (header file)) cells)).2) as Hrb
    by by rewrite Hbody.
  split; [split|].
  - intros Hok r Hr. destruct r as [points|e]; [done|].
    assert (is_ok rb = false) as Hbad.
    { rewrite Hrb. unfold routing_body. apply bind_fails_left.
      apply route_chunks_failed_read. by exists e. }
    destruct rb; simpl in *; congruence.
  - intros Hall. destruct (all_ok_reads _ Hall) as [oks Hoks].
    rewrite (routing_body_all_read cells file oks Hpc Hoks) in Hrb.
    by subst rb.
  - intros oks e rest Hchunks.
    rewrite (routing_body_failed_read cells file oks e rest Hpc Hchunks) in Hrb.
    by subst rb.
Qed.

Lemma partition_las_outcome_witness :
  (is_ok (partition_las "cloud.laz" truncated).2 = true <->
   forall r, r ∈ chunks truncated -> is_ok r = true) /\
  (forall oks e rest,
     chunks truncated = (Ok <$> oks) ++ Raise e :: rest ->
     (partition_las "cloud.laz" truncated).2 = Raise e).
Proof.
  apply (partition_las_outcome "cloud.laz" truncated). vm_compute. discriminate.
Defined.

(** X6.  A source whose header declares a point count of zero cannot be
    partitioned: unless the first read already fails, the progress
    [print] divides by the point count and [partition_las] raises
    [ZeroDivisionError]. *)
Theorem partition_las_zero_point_count (file_path : string) (file : LasReader) :
  point_count (header file) = 0 ->
  (forall e, head (chunks file) <> Some (Raise e)) ->
  (partition_las file_path file).2 = Raise ZeroDivisionError.
Proof.
  intros Hpc Hhead.
  destruct (partition_las_with_unfold _ file_path file sound_router_early)
    as (cells & ws1 & rb & Hsplit & Hbody & _ & _ & Hres).
  unfold partition_las. rewrite Hres. simpl.
  assert (rb = Raise ZeroDivisionError) as ->; [|done].
  replace rb with (routing_body
    (fun points => route_chunk points 0 (enumerate cells))
    file (map (fun _ => open_writer (header file)) cells)).2
    by by rewrite Hbody.
  unfold routing_body. rewrite Hpc.
  destruct (chunks file) as [|[points|e] rest]; simpl in *.
  - done.
  - done.
  - by specialize (Hhead e).
Qed.

Lemma partition_las_zero_point_count_witness :
  (partition_las "cloud.laz" no_points).2 = Raise ZeroDivisionError.
Proof.
  apply (partition_las_zero_point_count "cloud.laz" no_points).
  - reflexivity.
  - intros e. simpl. discriminate.
Defined.

(** ** Temporary paths *)

Lemma string_length_app (s1 s2 : string) :
  String.length (s1 +:+ s2) = (String.length s1 + String.length s2)%nat.
Proof. induction s1 as [|a s1 IH]; simpl; [done|]. by rewrite IH. Qed.

Lemma string_app_inj_r (t s1 s2 : string) : s1 +:+ t = s2 +:+ t -> s1 = s2.
Proof.
  revert s2. induction s1 as [|a s1 IH]; intros [|b s2] E.
  - done.
  - apply (f_equal String.length) in E.
    change (String.length t = S (String.length (s2 +:+ t))) in E.
    rewrite string_length_app in E. lia.
  - apply (f_equal String.length) in E.
    change (S (String.length (s1 +:+ t)) = String.length t) in E.
    rewrite string_length_app in E. lia.
  - injection E as -> E. f_equal. by apply IH.
Qed.

Lemma dem_part_file_inj tmp : Inj (=) (=) (dem_part_file tmp).
Proof.
  intros i j E. unfold dem_part_file in E.
  apply (inj (String.app tmp)), (inj (String.app "_dem-part")) in E.
  apply string_app_inj_r in E. by apply (inj pretty) in E.
Qed.

Lemma dsm_part_file_inj tmp : Inj (=) (=) (dsm_part_file tmp).
Proof.
  intros i j E. unfold dsm_part_file in E.
  apply (inj (String.app tmp)), (inj (String.app "_dsm-part")) in E.
  apply string_app_inj_r in E. by apply (inj pretty) in E.
Qed.

Lemma part_files_distinct tmp i j : dsm_part_file tmp i <> dem_part_file tmp j.
Proof.
  unfold dsm_part_file, dem_part_file. intros E.
  apply (inj (String.app tmp)) in E. simpl in E. done.
Qed.

Lemma dsm_part_not_merged tmp i :
  dsm_part_file tmp i <> dsm_merged_file tmp /\
  dsm_part_file tmp i <> dem_merged_file tmp.
Proof.
  unfold dsm_part_file, dsm_merged_file, dem_merged_file.
  split; intros E; apply (inj (String.app tmp)) in E; simpl in E; done.
Qed.

Lemma dem_part_not_merged tmp i :
  dem_part_file tmp i <> dsm_merged_file tmp /\
  dem_part_file tmp i <> dem_merged_file tmp.
Proof.
  unfold dem_part_file, dsm_merged_file, dem_merged_file.
  split; intros E; apply (inj (String.app tmp)) in E; simpl in E; done.
Qed.

Lemma merged_files_distinct tmp : dsm_merged_file tmp <> dem_merged_file tmp.
Proof.
  unfold dsm_merged_file, dem_merged_file. intros E.
  by apply (inj (String.app tmp)) in E.
Qed.

(** Two paths with a common prefix and different literal suffixes. *)
Ltac distinct_suffix :=
  let E := fresh in
  intros E; apply (inj (String.app _)) in E; simpl in E; done.

(** *** [create_dem], [create_models] *)

Lemma create_dem_finally_run laz dem (fs : FS) :
  create_dem_finally laz dem fs = (delete dem (delete laz fs), Ok tt).
Proof.
  unfold create_dem_finally. by rewrite bind_run, !swallow_remove_run.
Qed.

Lemma create_models_finally_run laz dsm dem (fs : FS) :
  create_models_finally laz dsm dem fs
  = (delete dem (delete dsm (delete laz fs)), Ok tt).
Proof.
  unfold create_models_finally.
  by rewrite bind_run, swallow_remove_run, bind_run, !swallow_remove_run.
Qed.

Lemma try_finally_run {S A} (body : M S A) (fin : M S unit) (s s1 s2 : S) r :
  body s = (s1, r) -> fin s1 = (s2, Ok tt) -> try_finally body fin s = (s2, r).
Proof. intros Hb Hf. unfold try_finally. by rewrite Hb, Hf. Qed.

Section Engine.
Variable pdal_execute : Pipeline -> M FS Z.

(** X7.  However [create_dem] ends - it returns, the engine raises, or
    the engine leaves no output - neither of its two temporary files is
    left in the file system. *)
Theorem create_dem_leaves_no_temp_file (tmp_prefix file_path : string)
    (partition : Z) (las_data : Bytes) (fs : FS) :
  let fs' := (create_dem pdal_execute tmp_prefix file_path partition las_data fs).1 in
  fs' !! (tmp_prefix +:+ ".laz") = None /\
  fs' !! (tmp_prefix +:+ "_dem.gtiff") = None.
Proof.
  unfold create_dem.
  destruct (create_dem_try pdal_execute (tmp_prefix +:+ ".laz")
              (tmp_prefix +:+ "_dem.gtiff") file_path partition las_data fs)
    as [fs1 r] eqn:E.
  rewrite (try_finally_run _ _ _ _ _ _ E (create_dem_finally_run _ _ fs1)).
  simpl. split.
  - rewrite lookup_delete_ne by distinct_suffix. by rewrite lookup_delete_eq.
  - by rewrite lookup_delete_eq.
Qed.

(** X8.  However [create_models] ends, none of its three temporary files
    is left in the file system. *)
Theorem create_models_leaves_no_temp_file (tmp_prefix file_path : string)
    (partition : Z) (las_data : Bytes) (fs : FS) :
  let fs' := (create_models pdal_execute tmp_prefix file_path partition las_data fs).1 in
  fs' !! (tmp_prefix +:+ ".laz") = None /\
  fs' !! (tmp_prefix +:+ "_dsm.gtiff") = None /\
  fs' !! (tmp_prefix +:+ "_dem.gtiff") = None.
Proof.
  unfold create_models.
  destruct (create_models_try pdal_execute (tmp_prefix +:+ ".laz")
              (tmp_prefix +:+ "_dsm.gtiff") (tmp_prefix +:+ "_dem.gtiff")
              file_path partition las_data fs) as [fs1 r] eqn:E.
  rewrite (try_finally_run _ _ _ _ _ _ E (create_models_finally_run _ _ _ fs1)).
  simpl. repeat split.
  - do 2 (rewrite lookup_delete_ne by distinct_suffix).
    by rewrite lookup_delete_eq.
  - rewrite lookup_delete_ne by distinct_suffix. by rewrite lookup_delete_eq.
  - by rewrite lookup_delete_eq.
Qed.

(** X9.  [create_dem] hands the point cloud to the engine under the
    [.laz] path and ends as the engine run ends: an exception of the
    engine is raised to the caller; when the engine returns without
    having left a file at the DEM path the call raises
    [FileNotFoundError]; otherwise it returns the caller's [file_path] and
    [partition] with the content of that file. *)
Theorem create_dem_outcome (tmp_prefix file_path : string)
    (partition : Z) (las_data : Bytes) (fs fs1 : FS) (r : result Z) :
  pdal_execute
    (dem_pipeline_json (tmp_prefix +:+ ".laz") (tmp_prefix +:+ "_dem.gtiff"))
    (<[tmp_prefix +:+ ".laz" := las_data]> fs) = (fs1, r) ->
  (create_dem pdal_execute tmp_prefix file_path partition las_data fs).2 =
    match r with
    | Raise e => Raise e
    | Ok _ =>
        match fs1 !! (tmp_prefix +:+ "_dem.gtiff") with
        | Some dem => Ok (file_path, partition, dem)
        | None => Raise FileNotFoundError
        end
    end.
Proof.
  intros Hrun. unfold create_dem.
  rewrite try_finally_quiet by (intros; apply create_dem_finally_ok).
  unfold create_dem_try. rewrite bind_run. unfold write_file at 1.
  rewrite bind_run, Hrun. destruct r as [n|e]; [|done].
  rewrite bind_run. unfold read_file.
  by destruct (fs1 !! (tmp_prefix +:+ "_dem.gtiff")).
Qed.

End Engine.

(** *** The staging loops of the merge functions *)

Lemma for_acc_run {S A B} (xs : list A) (body : B -> A -> M S B)
    (step : S -> A -> S) (next : B -> A -> B) acc s :
  (forall acc a s, body acc a s = (step s a, Ok (next acc a))) ->
  for_acc xs acc body s = (foldl step s xs, Ok (foldl next acc xs)).
Proof.
  intros Hbody. revert acc s. induction xs as [|a xs IH]; intros acc s; simpl.
  - done.
  - by rewrite bind_run, Hbody, IH.
Qed.

Lemma foldl_snoc_names {A} (name : A -> string) (xs : list A) (acc : list string) :
  foldl (fun files a => files ++ [name a]) acc xs = acc ++ (name <$> xs).
Proof.
  revert acc. induction xs as [|a xs IH]; intros acc; simpl.
  - by rewrite app_nil_r.
  - rewrite IH. by rewrite <- app_assoc.
Qed.

(** Writing a list of files: a path outside the list keeps its content,
    and when the names are distinct every file holds what was written. *)
Lemma lookup_staged_other {A} (name : A -> string) (data : A -> Bytes)
    (xs : list A) (fs : FS) f :
  f ∉ name <$> xs ->
  foldl (fun m a => <[name a := data a]> m) fs xs !! f = fs !! f.
Proof.
  revert fs. induction xs as [|a xs IH]; intros fs Hf; simpl; [done|].
  rewrite fmap_cons in Hf. apply not_elem_of_cons in Hf as [Hne Hf].
  rewrite IH by done. by rewrite lookup_insert_ne.
Qed.

Lemma lookup_staged {A} (name : A -> string) (data : A -> Bytes)
    (xs : list A) (fs : FS) a :
  NoDup (name <$> xs) -> a ∈ xs ->
  foldl (fun m a => <[name a := data a]> m) fs xs !! name a = Some (data a).
Proof.
  revert fs. induction xs as [|b xs IH]; intros fs Hnd Ha; simpl.
  - by apply elem_of_nil in Ha.
  - rewrite fmap_cons in Hnd. apply NoDup_cons in Hnd as [Hb Hnd].
    apply elem_of_cons in Ha as [->|Ha].
    + rewrite lookup_staged_other by done. by rewrite lookup_insert_eq.
    + by apply IH.
Qed.

Lemma lookup_staged_is_Some {A} (name : A -> string) (data : A -> Bytes)
    (xs : list A) (fs : FS) f :
  f ∈ name <$> xs ->
  is_Some (foldl (fun m a => <[name a := data a]> m) fs xs !! f).
Proof.
  revert fs. induction xs as [|b xs IH]; intros fs Hf; simpl.
  - by apply elem_of_nil in Hf.
  - destruct (decide (f ∈ name <$> xs)) as [Hin|Hout]; [by apply IH|].
    rewrite fmap_cons in Hf. apply elem_of_cons in Hf as [->|Hf]; [|done].
    rewrite lookup_staged_other by done. rewrite lookup_insert_eq. by eexists.
Qed.

(** *** Opening the staged files *)

Lemma rasterio_open_run name (fs : FS) :
  rasterio_open name fs =
  (fs, match fs !! name ≫= dataset_of with
       | Some d => Ok d
       | None => Raise (RasterioIOError name)
       end).
Proof.
  unfold rasterio_open. by destruct (fs !! name) as [[]|].
Qed.

Lemma comprehension_rasterio_open_state files (fs : FS) :
  (comprehension rasterio_open files fs).1 = fs.
Proof.
  induction files as [|f files IH]; simpl; [done|].
  rewrite bind_run, rasterio_open_run.
  destruct (fs !! f ≫= dataset_of); [|done].
  rewrite bind_run. destruct (comprehension rasterio_open files fs) as [fs1 [ds|e]];
    simpl in *; by subst.
Qed.

Lemma comprehension_rasterio_open_run files (fs : FS) datasets :
  Forall2 (fun f d => fs !! f ≫= dataset_of = Some d) files datasets ->
  comprehension rasterio_open files fs = (fs, Ok datasets).
Proof.
  induction 1 as [|f d files datasets Hf _ IH]; simpl; [done|].
  by rewrite bind_run, rasterio_open_run, Hf, bind_run, IH.
Qed.

(** *** Removing files *)

Lemma lookup_removed files (fs : FS) f :
  foldl (fun m g => delete g m) fs files !! f =
  if decide (f ∈ files) then None else fs !! f.
Proof.
  revert fs. induction files as [|g files IH]; intros fs; cbn [foldl].
  - destruct (decide (f ∈ [])) as [Hin|_]; [by apply elem_of_nil in Hin | done].
  - rewrite IH.
    destruct (decide (f ∈ files)) as [Hin|Hout],
             (decide (f ∈ g :: files)) as [Hin'|Hout']; try done.
    + exfalso. apply Hout'. by right.
    + apply elem_of_cons in Hin' as [->|?]; [by rewrite lookup_delete_eq | done].
    + rewrite lookup_delete_ne; [done|]. intros ->. apply Hout'. by left.
Qed.

Lemma for_each_swallow_remove_run files (fs : FS) :
  for_each files (fun f => except_FileNotFoundError_pass (os_remove f)) fs
  = (foldl (fun m g => delete g m) fs files, Ok tt).
Proof.
  revert fs. induction files as [|f files IH]; intros fs; simpl; [done|].
  by rewrite bind_run, swallow_remove_run, IH.
Qed.

Lemma for_each_os_remove_run files (fs : FS) :
  NoDup files -> (forall f, f ∈ files -> is_Some (fs !! f)) ->
  for_each files os_remove fs = (foldl (fun m g => delete g m) fs files, Ok tt).
Proof.
  revert fs. induction files as [|f files IH]; intros fs Hnd Hall; simpl; [done|].
  apply NoDup_cons in Hnd as [Hf Hnd].
  rewrite bind_run. unfold os_remove at 1.
  destruct (Hall f ltac:(by left)) as [b ->].
  apply IH; [done|]. intros g Hg.
  rewrite lookup_delete_ne by (intros ->; done). apply Hall. by right.
Qed.

Lemma os_remove_outcome f (fs : FS) :
  (os_remove f fs).2 = Ok tt \/ (os_remove f fs).2 = Raise FileNotFoundError.
Proof. unfold os_remove. destruct (fs !! f); auto. Qed.

Lemma for_each_os_remove_missing files (fs : FS) f :
  f ∈ files -> fs !! f = None ->
  (for_each files os_remove fs).2 = Raise FileNotFoundError.
Proof.
  revert fs. induction files as [|g files IH]; intros fs Hin Hf; simpl.
  - by apply elem_of_nil in Hin.
  - rewrite bind_run. unfold os_remove at 1.
    destruct (fs !! g) as [b|] eqn:Eg; [|done].
    apply IH.
    + apply elem_of_cons in Hin as [->|Hin]; [congruence|done].
    + destruct (decide (g = f)) as [->|Hne]; [by rewrite lookup_delete_eq|].
      by rewrite lookup_delete_ne.
Qed.

(** A path listed twice cannot be removed twice. *)
Lemma for_each_os_remove_dup files (fs : FS) :
  ~ NoDup files ->
  (for_each files os_remove fs).2 = Raise FileNotFoundError.
Proof.
  revert fs. induction files as [|f files IH]; intros fs Hdup; simpl.
  - destruct Hdup. constructor.
  - rewrite bind_run. unfold os_remove at 1.
    destruct (fs !! f) as [b|] eqn:Ef; [|done].
    destruct (decide (f ∈ files)) as [Hin|Hout].
    + apply (for_each_os_remove_missing _ _ f); [done|]. by rewrite lookup_delete_eq.
    + apply IH. intros Hnd. apply Hdup. by constructor.
Qed.

(** *** [merge_dem_partitions] *)

Section MergeRuns.
Variable merge : list Dataset -> result (Array * Affine).

Lemma staged_datasets {A} (name : A -> string) (data : A -> Bytes)
    (xs : list A) (fs : FS) datasets :
  NoDup (name <$> xs) ->
  Forall2 (fun a d => dataset_of (data a) = Some d) xs datasets ->
  Forall2 (fun f d =>
             foldl (fun m a => <[name a := data a]> m) fs xs !! f ≫= dataset_of
             = Some d)
          (name <$> xs) datasets.
Proof.
  intros Hnd Hall. apply Forall2_fmap_l.
  apply Forall2_same_length_lookup_2; [by eapply Forall2_length|].
  intros k a d Ha Hd. unfold compose.
  rewrite (lookup_staged name data xs fs a Hnd) by by eapply list_elem_of_lookup_2.
  simpl. eapply Forall2_lookup_lr in Hall; eauto.
Qed.

(** X10.  Given tiles with distinct partition indices that are all
    GeoTIFF images, and a merge of their datasets (in the order of the
    tiles) that succeeds, [merge_dem_partitions] returns the key with the
    mosaic written under a profile whose height, width and transform are
    those of the mosaic and whose data type, nodata value, band count and
    reference system are those of the first tile; afterwards none of its
    temporary files exists and every other path is as before. *)
Theorem merge_dem_partitions_success (tmp key : string)
    (partitions : list (string * Z * Bytes)) (datasets : list Dataset)
    (dems_0 : Dataset) (mosaic : Array) (transform : Affine) (fs : FS) :
  NoDup partitions.*1.*2 ->
  Forall2 (fun p d => dataset_of p.2 = Some d) partitions datasets ->
  head datasets = Some dems_0 ->
  merge datasets = Ok (mosaic, transform) ->
  exists fs' profile,
    merge_dem_partitions merge tmp key partitions fs
      = (fs', Ok (key, GTiff profile mosaic)) /\
    profile !! "height" = Some (MInt (shape mosaic).1.2) /\
    profile !! "width" = Some (MInt (shape mosaic).2) /\
    profile !! "transform" = Some (MTransform transform) /\
    (forall k, k ∈ ["dtype"; "nodata"; "count"; "crs"] ->
               profile !! k = meta dems_0 !! k) /\
    (forall f, fs' !! f =
       if decide (f ∈ dem_merged_file tmp ::
                      (dem_part_file tmp <$> partitions.*1.*2))
       then None else fs !! f).
Proof.
  intros Hnd Hall Hhead Hmerge.
  set (name := fun p : string * Z * Bytes => dem_part_file tmp p.1.2).
  set (data := fun p : string * Z * Bytes => p.2).
  assert (name <$> partitions = dem_part_file tmp <$> partitions.*1.*2) as Hnames.
  { by rewrite <- !list_fmap_compose. }
  assert (NoDup (name <$> partitions)) as Hndn.
  { rewrite Hnames. apply NoDup_fmap_2; [apply dem_part_file_inj | done]. }
  unfold merge_dem_partitions.
  rewrite bind_run.
  rewrite (for_acc_run _ _ (fun m p => <[name p := data p]> m)
             (fun files p => files ++ [name p]))
    by (by intros acc [[fp i] dem] s).
  rewrite foldl_snoc_names, app_nil_l.
  set (fs1 := foldl _ fs partitions).
  rewrite bind_run,
    (comprehension_rasterio_open_run _ fs1 datasets
       (staged_datasets name data partitions fs datasets Hndn Hall)).
  rewrite bind_run. unfold lift at 1. rewrite Hmerge.
  rewrite bind_run. unfold lift at 1.
  destruct datasets as [|d ds]; [done|]. simpl in Hhead. simplify_eq.
  cbn [first]. rewrite bind_run. unfold rio_write, write_file at 1.
  rewrite bind_run. unfold read_file at 1. rewrite lookup_insert_eq.
  rewrite bind_run. unfold merge_dem_cleanup.
  rewrite bind_run, swallow_remove_run, for_each_swallow_remove_run.
  unfold ret. eexists _, _. split; [reflexivity|].
  unfold update. repeat split.
  - apply lookup_union_Some_l. by simplify_map_eq.
  - apply lookup_union_Some_l. by simplify_map_eq.
  - apply lookup_union_Some_l. by simplify_map_eq.
  - intros k Hk. apply lookup_union_r.
    repeat (apply elem_of_cons in Hk as [->|Hk]; [by simplify_map_eq|]).
    by apply elem_of_nil in Hk.
  - intros f. cbn [fst]. rewrite lookup_removed, Hnames.
    fold (dem_merged_file tmp).
    destruct (decide (f ∈ dem_part_file tmp <$> partitions.*1.*2)) as [Hin|Hout].
    + rewrite decide_True; [done|]. by right.
    + destruct (decide (f = dem_merged_file tmp)) as [->|Hne].
      * rewrite decide_True by by left. by rewrite lookup_delete_eq.
      * rewrite decide_False by (by intros [?|?]%elem_of_cons).
        rewrite lookup_delete_ne, lookup_insert_ne by done.
        apply lookup_staged_other. by rewrite Hnames.
Qed.


(** X11.  [merge_dem_partitions] has no [finally]: whenever it raises,
    every part file it staged is still in the file system. *)
Theorem merge_dem_partitions_failure_keeps_part_files (tmp key : string)
    (partitions : list (string * Z * Bytes)) (fs fs' : FS) (e : exn) :
  merge_dem_partitions merge tmp key partitions fs = (fs', Raise e) ->
  forall i, i ∈ partitions.*1.*2 -> is_Some (fs' !! dem_part_file tmp i).
Proof.
  set (name := fun p : string * Z * Bytes => dem_part_file tmp p.1.2).
  set (data := fun p : string * Z * Bytes => p.2).
  assert (name <$> partitions = dem_part_file tmp <$> partitions.*1.*2) as Hnames.
  { by rewrite <- !list_fmap_compose. }
  unfold merge_dem_partitions. rewrite bind_run.
  rewrite (for_acc_run _ _ (fun m p => <[name p := data p]> m)
             (fun files p => files ++ [name p]))
    by (by intros acc [[fp j] dem] s).
  rewrite foldl_snoc_names, app_nil_l.
  set (fs1 := foldl _ fs partitions).
  assert (forall i, i ∈ partitions.*1.*2 -> is_Some (fs1 !! dem_part_file tmp i)) as Hkept.
  { intros i Hi. apply (lookup_staged_is_Some name data). rewrite Hnames.
    by apply list_elem_of_fmap_2. }
  rewrite bind_run.
  pose proof (comprehension_rasterio_open_state (name <$> partitions) fs1) as Hst.
  destruct (comprehension rasterio_open (name <$> partitions) fs1) as [fs2 [dems|e1]];
    simpl in Hst; subst fs2; [|by intros ?; simplify_eq].
  rewrite bind_run. unfold lift at 1.
  destruct (merge dems) as [[mosaic transform]|e2]; [|by intros ?; simplify_eq].
  rewrite bind_run. unfold lift at 1.
  destruct (first dems) as [dems_0|e3]; [|by intros ?; simplify_eq].
  rewrite bind_run. unfold rio_write, write_file at 1.
  rewrite bind_run. unfold read_file at 1. rewrite lookup_insert_eq.
  rewrite bind_run. unfold merge_dem_cleanup.
  rewrite bind_run, swallow_remove_run, for_each_swallow_remove_run.
  unfold ret. intros ?; simplify_eq.
Qed.

(** *** [merge_partitions] *)

Lemma foldl_pair_names {A} (n1 n2 : A -> string) (xs : list A)
    (l1 l2 : list string) :
  foldl (fun files a => (files.1 ++ [n1 a], files.2 ++ [n2 a])) (l1, l2) xs
  = (l1 ++ (n1 <$> xs), l2 ++ (n2 <$> xs)).
Proof.
  revert l1 l2. induction xs as [|a xs IH]; intros l1 l2; simpl.
  - by rewrite !app_nil_r.
  - rewrite IH. by rewrite <- !app_assoc.
Qed.

(** The staging loop of [merge_partitions], run. *)
Ltac run_models_staging tmp H :=
  rewrite (for_acc_run _ _
             (fun m p => <[dem_part_file tmp p.1.1.2 := p.2]>
                           (<[dsm_part_file tmp p.1.1.2 := p.1.2]> m))
             (fun files p => (files.1 ++ [dsm_part_file tmp p.1.1.2],
                              files.2 ++ [dem_part_file tmp p.1.1.2]))) in H
    by (by intros [? ?] [[[? ?] ?] ?] ?);
  rewrite foldl_pair_names, !app_nil_l in H.

(** X12.  [merge_partitions] never returns normally when two tiles
    carry the same partition index, whatever the tiles and the merge. *)
Theorem merge_partitions_duplicate_index (tmp key : string)
    (partitions : list (string * Z * Bytes * Bytes)) (fs : FS) :
  ~ NoDup partitions.*1.*1.*2 ->
  is_ok (merge_partitions merge tmp key partitions fs).2 = false.
Proof.
  intros Hdup.
  destruct (merge_partitions merge tmp key partitions fs) as [fs' [v|e]] eqn:Hrun;
    [exfalso|done].
  unfold merge_partitions in Hrun.
  apply bind_Ok_inv in Hrun as ([dsm_files dem_files] & fs1 & Hloop & H).
  run_models_staging tmp Hloop. simplify_eq.
  apply bind_Ok_inv in H as (dsms & fs2 & _ & H).
  apply bind_Ok_inv in H as (dems & fs3 & _ & H).
  apply bind_Ok_inv in H as ([mosaic_dsm output_dsm] & fs4 & _ & H).
  apply bind_Ok_inv in H as ([mosaic_dem output_dem] & fs5 & _ & H).
  apply bind_Ok_inv in H as (dsms_0 & fs6 & _ & H).
  apply bind_Ok_inv in H as ([] & fs7 & _ & H).
  apply bind_Ok_inv in H as (dems_0 & fs8 & _ & H).
  apply bind_Ok_inv in H as ([] & fs9 & _ & H).
  apply bind_Ok_inv in H as (dsm_merged & fs10 & _ & H).
  apply bind_Ok_inv in H as ([] & fs11 & _ & H).
  apply bind_Ok_inv in H as (dem_merged & fs12 & _ & H).
  apply bind_Ok_inv in H as ([] & fs13 & _ & H).
  apply bind_Ok_inv in H as ([] & fs14 & Hrm & _).
  assert ((fun p : string * Z * Bytes * Bytes => dsm_part_file tmp p.1.1.2)
            <$> partitions = dsm_part_file tmp <$> partitions.*1.*1.*2) as Hnames
    by by rewrite <- !list_fmap_compose.
  rewrite Hnames in Hrm.
  pose proof (for_each_os_remove_dup
                (dsm_part_file tmp <$> partitions.*1.*1.*2) fs13
                (fun Hnd => Hdup (NoDup_fmap_1 (dsm_part_file tmp) _ Hnd))) as Hfail.
  rewrite Hrm in Hfail. done.
Qed.


Lemma lookup_staged2_other {A} (n1 n2 : A -> string) (d1 d2 : A -> Bytes)
    (xs : list A) (fs : FS) f :
  f ∉ n1 <$> xs -> f ∉ n2 <$> xs ->
  foldl (fun m a => <[n2 a := d2 a]> (<[n1 a := d1 a]> m)) fs xs !! f = fs !! f.
Proof.
  revert fs. induction xs as [|a xs IH]; intros fs H1 H2; simpl; [done|].
  rewrite fmap_cons in H1, H2.
  apply not_elem_of_cons in H1 as [Hne1 H1]. apply not_elem_of_cons in H2 as [Hne2 H2].
  rewrite IH by done. by rewrite !lookup_insert_ne.
Qed.

Lemma lookup_staged2 {A} (n1 n2 : A -> string) (d1 d2 : A -> Bytes)
    (xs : list A) (fs : FS) a :
  NoDup (n1 <$> xs) -> NoDup (n2 <$> xs) -> (forall b c, n1 b <> n2 c) ->
  a ∈ xs ->
  foldl (fun m a => <[n2 a := d2 a]> (<[n1 a := d1 a]> m)) fs xs !! n1 a
    = Some (d1 a) /\
  foldl (fun m a => <[n2 a := d2 a]> (<[n1 a := d1 a]> m)) fs xs !! n2 a
    = Some (d2 a).
Proof.
  intros Hnd1 Hnd2 Hne. revert fs.
  induction xs as [|b xs IH]; intros fs Ha; simpl.
  - by apply elem_of_nil in Ha.
  - rewrite fmap_cons in Hnd1, Hnd2.
    apply NoDup_cons in Hnd1 as [Hb1 Hnd1]. apply NoDup_cons in Hnd2 as [Hb2 Hnd2].
    specialize (IH Hnd1 Hnd2).
    apply elem_of_cons in Ha as [->|Ha]; [|by apply IH].
    assert (n1 b ∉ n2 <$> xs) as Hx1.
    { intros (c & Hc & _)%list_elem_of_fmap. by apply Hne in Hc. }
    assert (n2 b ∉ n1 <$> xs) as Hx2.
    { intros (c & Hc & _)%list_elem_of_fmap. symmetry in Hc. by apply Hne in Hc. }
    split.
    + rewrite lookup_staged2_other by auto.
      rewrite lookup_insert_ne by (intros E; symmetry in E; by apply Hne in E).
      by rewrite lookup_insert_eq.
    + rewrite lookup_staged2_other by auto. by rewrite lookup_insert_eq.
Qed.

(** X13.  Given tiles with distinct partition indices whose surface and
    terrain images are all GeoTIFF, and merges of both families that
    succeed, [merge_partitions] returns the key with both mosaics, each
    under a profile with the height, width and transform of its mosaic;
    afterwards none of its temporary files exists and every other path is
    as before. *)
Theorem merge_partitions_success (tmp key : string)
    (partitions : list (string * Z * Bytes * Bytes))
    (dsms dems : list Dataset) (dsms_0 dems_0 : Dataset)
    (mosaic_dsm mosaic_dem : Array) (output_dsm output_dem : Affine) (fs : FS) :
  NoDup partitions.*1.*1.*2 ->
  Forall2 (fun p d => dataset_of p.1.2 = Some d) partitions dsms ->
  Forall2 (fun p d => dataset_of p.2 = Some d) partitions dems ->
  head dsms = Some dsms_0 -> head dems = Some dems_0 ->
  merge dsms = Ok (mosaic_dsm, output_dsm) ->
  merge dems = Ok (mosaic_dem, output_dem) ->
  exists fs' profile_dsm profile_dem,
    merge_partitions merge tmp key partitions fs
      = (fs', Ok (key, GTiff profile_dsm mosaic_dsm, GTiff profile_dem mosaic_dem)) /\
    (profile_dsm !! "height" = Some (MInt (shape mosaic_dsm).1.2) /\
     profile_dsm !! "width" = Some (MInt (shape mosaic_dsm).2) /\
     profile_dsm !! "transform" = Some (MTransform output_dsm)) /\
    (profile_dem !! "height" = Some (MInt (shape mosaic_dem).1.2) /\
     profile_dem !! "width" = Some (MInt (shape mosaic_dem).2) /\
     profile_dem !! "transform" = Some (MTransform output_dem)) /\
    (forall f, fs' !! f =
       if decide (f ∈ dsm_merged_file tmp :: dem_merged_file tmp ::
                      (dsm_part_file tmp <$> partitions.*1.*1.*2) ++
                      (dem_part_file tmp <$> partitions.*1.*1.*2))
       then None else fs !! f).
Proof.
  intros Hnd Hdsms Hdems Hhead1 Hhead2 Hmerge1 Hmerge2.
  set (n1 := fun p : string * Z * Bytes * Bytes => dsm_part_file tmp p.1.1.2).
  set (n2 := fun p : string * Z * Bytes * Bytes => dem_part_file tmp p.1.1.2).
  set (d1 := fun p : string * Z * Bytes * Bytes => p.1.2).
  set (d2 := fun p : string * Z * Bytes * Bytes => p.2).
  assert (n1 <$> partitions = dsm_part_file tmp <$> partitions.*1.*1.*2) as Hn1
    by by rewrite <- !list_fmap_compose.
  assert (n2 <$> partitions = dem_part_file tmp <$> partitions.*1.*1.*2) as Hn2
    by by rewrite <- !list_fmap_compose.
  assert (NoDup (n1 <$> partitions)) as Hnd1.
  { rewrite Hn1. apply NoDup_fmap_2; [apply dsm_part_file_inj | done]. }
  assert (NoDup (n2 <$> partitions)) as Hnd2.
  { rewrite Hn2. apply NoDup_fmap_2; [apply dem_part_file_inj | done]. }
  assert (forall b c, n1 b <> n2 c) as Hne by (intros; apply part_files_distinct).
  unfold merge_partitions. rewrite bind_run.
  rewrite (for_acc_run _ _ (fun m p => <[n2 p := d2 p]> (<[n1 p := d1 p]> m))
             (fun files p => (files.1 ++ [n1 p], files.2 ++ [n2 p])))
    by (by intros [? ?] [[[? ?] ?] ?] ?).
  rewrite foldl_pair_names, !app_nil_l.
  set (fs1 := foldl _ fs partitions).
  assert (forall p, p ∈ partitions ->
            fs1 !! n1 p = Some (d1 p) /\ fs1 !! n2 p = Some (d2 p)) as Hstaged.
  { intros p Hp. by apply lookup_staged2. }
  rewrite bind_run, (comprehension_rasterio_open_run _ fs1 dsms).
  2:{ apply Forall2_fmap_l.
      apply Forall2_same_length_lookup_2; [by eapply Forall2_length|].
      intros k p d Hp Hd. unfold compose.
      destruct (Hstaged p) as [-> _]; [by eapply list_elem_of_lookup_2|].
      simpl. eapply Forall2_lookup_lr in Hdsms; eauto. }
  rewrite bind_run, (comprehension_rasterio_open_run _ fs1 dems).
  2:{ apply Forall2_fmap_l.
      apply Forall2_same_length_lookup_2; [by eapply Forall2_length|].
      intros k p d Hp Hd. unfold compose.
      destruct (Hstaged p) as [_ ->]; [by eapply list_elem_of_lookup_2|].
      simpl. eapply Forall2_lookup_lr in Hdems; eauto. }
  rewrite bind_run. unfold lift at 1. rewrite Hmerge1.
  rewrite bind_run. unfold lift at 1. rewrite Hmerge2.
  destruct dsms as [|ds1 dsms']; [done|]. destruct dems as [|de1 dems']; [done|].
  simpl in Hhead1, Hhead2. simplify_eq.
  rewrite bind_run. unfold lift at 1. cbn [first].
  rewrite bind_run. unfold rio_write, write_file at 1.
  rewrite bind_run. unfold lift at 1. cbn [first].
  rewrite bind_run. unfold rio_write, write_file at 1.
  fold (dsm_merged_file tmp). fold (dem_merged_file tmp).
  pose proof (merged_files_distinct tmp) as Hmd.
  rewrite bind_run. unfold read_file at 1.
  rewrite lookup_insert_ne, lookup_insert_eq by done.
  rewrite bind_run. unfold os_remove at 1.
  rewrite lookup_insert_ne, lookup_insert_eq by done.
  rewrite bind_run. unfold read_file at 1.
  rewrite lookup_delete_ne, lookup_insert_eq by done.
  rewrite bind_run. unfold os_remove at 1.
  rewrite lookup_delete_ne, lookup_insert_eq by done.
  set (fs5 := delete (dem_merged_file tmp) (delete (dsm_merged_file tmp) _)).
  assert (forall p, p ∈ partitions ->
            fs5 !! n1 p = Some (d1 p) /\ fs5 !! n2 p = Some (d2 p)) as Hkept.
  { intros p Hp. unfold fs5.
    destruct (dsm_part_not_merged tmp p.1.1.2) as [? ?].
    destruct (dem_part_not_merged tmp p.1.1.2) as [? ?].
    rewrite !lookup_delete_ne, !lookup_insert_ne by done. by apply Hstaged. }
  rewrite bind_run, for_each_os_remove_run; [|done|].
  2:{ intros f (p & -> & Hp)%list_elem_of_fmap. destruct (Hkept p Hp) as [-> _]. by eexists. }
  rewrite bind_run, for_each_os_remove_run; [|done|].
  2:{ intros f (p & -> & Hp)%list_elem_of_fmap. rewrite lookup_removed.
      rewrite decide_False.
      - destruct (Hkept p Hp) as [_ ->]. by eexists.
      - intros (q & Hq & _)%list_elem_of_fmap. symmetry in Hq. by apply Hne in Hq. }
  unfold ret. eexists _, _, _. split; [reflexivity|].
  unfold update. split; [|split].
  - repeat split; apply lookup_union_Some_l; by simplify_map_eq.
  - repeat split; apply lookup_union_Some_l; by simplify_map_eq.
  - intros f. cbn [fst]. rewrite !lookup_removed, Hn1, Hn2.
    set (F1 := dsm_part_file tmp <$> partitions.*1.*1.*2).
    set (F2 := dem_part_file tmp <$> partitions.*1.*1.*2).
    destruct (decide (f ∈ F2)) as [Hin2|Hout2].
    { rewrite decide_True; [done|]. do 2 right. apply elem_of_app. by right. }
    destruct (decide (f ∈ F1)) as [Hin1|Hout1].
    { rewrite decide_True; [done|]. do 2 right. apply elem_of_app. by left. }
    unfold fs5. destruct (decide (f = dem_merged_file tmp)) as [->|Hne2].
    { rewrite decide_True by (right; by left). by rewrite lookup_delete_eq. }
    rewrite lookup_delete_ne by done.
    destruct (decide (f = dsm_merged_file tmp)) as [->|Hne1].
    { rewrite decide_True by by left. by rewrite lookup_delete_eq. }
    rewrite lookup_delete_ne, !lookup_insert_ne by done.
    rewrite decide_False.
    + apply lookup_staged2_other; by rewrite ?Hn1, ?Hn2.
    + intros Hin. apply elem_of_cons in Hin as [?|Hin]; [done|].
      apply elem_of_cons in Hin as [?|Hin]; [done|].
      apply elem_of_app in Hin as [?|?]; done.
Qed.

End MergeRuns.

(** *** The properties at concrete inputs *)

Lemma create_dem_outcome_witness :
  (create_dem (writing_engine tile) "/tmp/tmpq1" "cloud.laz" 0 one_point_cloud ∅).2 =
    match Ok 1 with
    | Raise e => Raise e
    | Ok _ =>
        match (<["/tmp/tmpq1_dem.gtiff" := tile]>
                 (<["/tmp/tmpq1.laz" := one_point_cloud]> ∅) : FS)
                !! ("/tmp/tmpq1" +:+ "_dem.gtiff") with
        | Some dem => Ok ("cloud.laz", 0, dem)
        | None => Raise FileNotFoundError
        end
    end.
Proof.
  apply (create_dem_outcome (writing_engine tile) "/tmp/tmpq1" "cloud.laz" 0
           one_point_cloud ∅).
  reflexivity.
Defined.

Lemma merge_dem_partitions_success_witness :
  exists fs' profile,
    merge_dem_partitions first_tile_merge "/tmp/tmpq1" "cloud.laz" two_dem_tiles ∅
      = (fs', Ok ("cloud.laz", GTiff profile (pixels tile_dataset))) /\
    profile !! "height" = Some (MInt (shape (pixels tile_dataset)).1.2) /\
    profile !! "width" = Some (MInt (shape (pixels tile_dataset)).2) /\
    profile !! "transform" = Some (MTransform [1; 0; 0; 0; -1; 0]%Q) /\
    (forall k, k ∈ ["dtype"; "nodata"; "count"; "crs"] ->
               profile !! k = meta tile_dataset !! k) /\
    (forall f, fs' !! f =
       if decide (f ∈ dem_merged_file "/tmp/tmpq1" ::
                      (dem_part_file "/tmp/tmpq1" <$> two_dem_tiles.*1.*2))
       then None else (∅ : FS) !! f).
Proof.
  apply (merge_dem_partitions_success first_tile_merge "/tmp/tmpq1" "cloud.laz"
           two_dem_tiles [tile_dataset; tile_dataset] tile_dataset).
  - apply (bool_decide_unpack _). vm_compute. exact I.
  - repeat constructor.
  - reflexivity.
  - reflexivity.
Defined.

Lemma merge_dem_partitions_failure_keeps_part_files_witness :
  is_Some ((merge_dem_partitions first_tile_merge "/tmp/tmpq1" "cloud.laz"
              unreadable_tiles ∅).1 !! dem_part_file "/tmp/tmpq1" 0).
Proof.
  apply (merge_dem_partitions_failure_keeps_part_files first_tile_merge
           "/tmp/tmpq1" "cloud.laz" unreadable_tiles ∅ _
           (RasterioIOError "/tmp/tmpq1_dem-part0.gtiff")).
  - vm_compute. reflexivity.
  - simpl. left.
Defined.

Lemma merge_partitions_duplicate_index_witness :
  is_ok (merge_partitions first_tile_merge "/tmp/tmpq1" "cloud.laz"
           same_index_tiles ∅).2 = false.
Proof.
  apply (merge_partitions_duplicate_index first_tile_merge "/tmp/tmpq1"
           "cloud.laz" same_index_tiles ∅).
  apply (bool_decide_unpack _). vm_compute. exact I.
Defined.

Lemma merge_partitions_success_witness :
  exists fs' profile_dsm profile_dem,
    merge_partitions first_tile_merge "/tmp/tmpq1" "cloud.laz" two_model_tiles ∅
      = (fs', Ok ("cloud.laz", GTiff profile_dsm (pixels tile_dataset),
                  GTiff profile_dem (pixels tile_dataset))) /\
    (profile_dsm !! "height" = Some (MInt (shape (pixels tile_dataset)).1.2) /\
     profile_dsm !! "width" = Some (MInt (shape (pixels tile_dataset)).2) /\
     profile_dsm !! "transform" = Some (MTransform [1; 0; 0; 0; -1; 0]%Q)) /\
    (profile_dem !! "height" = Some (MInt (shape (pixels tile_dataset)).1.2) /\
     profile_dem !! "width" = Some (MInt (shape (pixels tile_dataset)).2) /\
     profile_dem !! "transform" = Some (MTransform [1; 0; 0; 0; -1; 0]%Q)) /\
    (forall f, fs' !! f =
       if decide (f ∈ dsm_merged_file "/tmp/tmpq1" :: dem_merged_file "/tmp/tmpq1" ::
                      (dsm_part_file "/tmp/tmpq1" <$> two_model_tiles.*1.*1.*2) ++
                      (dem_part_file "/tmp/tmpq1" <$> two_model_tiles.*1.*1.*2))
       then None else (∅ : FS) !! f).
Proof.
  apply (merge_partitions_success first_tile_merge "/tmp/tmpq1" "cloud.laz"
           two_model_tiles [tile_dataset; tile_dataset] [tile_dataset; tile_dataset]
           tile_dataset tile_dataset).
  - apply (bool_decide_unpack _). vm_compute. exact I.
  - repeat constructor.
  - repeat constructor.
  - reflexivity.
  - reflexivity.
  - reflexivity.
  - reflexivity.
Defined.
